(** * Hybrid-RAG backend: analytics engine, planner, vector store, dataset state

    A shallow embedding of the Python sources

      - [models/schema/schema_builder.py]   (normalize, build_schema)
      - [models/core/analytics_engine.py]   (AnalyticsEngine._col, AnalyticsEngine.run)
      - [models/core/planner.py]            (Planner.plan)
      - [models/rag/vectorstore.py]         (VectorStore.__init__, VectorStore.search)
      - [models/rag/retriever.py]           (Retriever.get_context)
      - [models/rag/schema_docs.py], [models/rag/dataset_summary.py]
      - [app/services/rag_service.py]       (RAGState, initialize_rag_system)

    followed by the properties of the specification that concern them.

    Conventions of the model.

      - A Python [str] is a Rocq [string]; a character is a code point below
        256, so [str.strip], [str.lower] are the Python functions restricted to
        that alphabet.
      - Python exceptions are values of [exception]; a computation that may
        raise has type [res A].
      - The pandas, faiss and json libraries are not part of the repository;
        the fragment of their behaviour the sources rely on is written out in
        [Pandas] and [VectorStoreModule]; [json.loads] and the language model
        are parameters of [PlannerModule].
      - Numbers held by the dataset are exact integers ([Z]); a mean rounded to
        two decimals is kept as an integer number of hundredths.  The dtype
        machinery of pandas (int64 wrap-around, float64 rounding) is not part
        of the model.
      - Embedding components are exact rationals ([Q]). *)

From Stdlib Require Import List String Ascii Bool Arith ZArith NArith QArith Lia.
From Stdlib Require Import Permutation Sorted DecimalString.
Import ListNotations.

Local Open Scope string_scope.
Local Open Scope list_scope.

Set Implicit Arguments.
Set Warnings "-register-all".

(* ================================================================= *)
(** ** Python built-ins used by the sources *)

Module Py.

(** The exceptions the modelled code can raise.  [ValueError] carries the
    message given at the [raise] statement; [KeyError] the missing key. *)
Inductive exception : Type :=
| ValueError (msg : string)
| KeyError (key : string)
| TypeError
| AttributeError
| IndexError
| AssertionError.

(** The outcome of a computation: a value, a raised exception, or
    [Unmodelled] where the library code that runs next is not covered by the
    model (see [Pandas]); nothing is proved about executions that get there. *)
Inductive res (A : Type) : Type :=
| Ok (a : A)
| Raise (e : exception)
| Unmodelled.
Arguments Ok {A} a.
Arguments Raise {A} e.
Arguments Unmodelled {A}.

Definition bind {A B} (m : res A) (f : A -> res B) : res B :=
  match m with
  | Ok a => f a
  | Raise e => Raise e
  | Unmodelled => Unmodelled
  end.

(** [str.isspace] on code points below 256. *)
Definition isspace (c : ascii) : bool :=
  let n := N_of_ascii c in
  (((9 <=? n) && (n <=? 13)) || ((28 <=? n) && (n <=? 32))
   || (n =? 133) || (n =? 160))%N.

Fixpoint lstrip_by (p : ascii -> bool) (s : string) : string :=
  match s with
  | EmptyString => EmptyString
  | String c s' => if p c then lstrip_by p s' else s
  end.

Fixpoint rstrip_by (p : ascii -> bool) (s : string) : string :=
  match s with
  | EmptyString => EmptyString
  | String c s' =>
      match rstrip_by p s' with
      | EmptyString => if p c then EmptyString else String c EmptyString
      | r => String c r
      end
  end.

(** [s.strip(chars)], the characters to remove given as a predicate. *)
Definition strip_by (p : ascii -> bool) (s : string) : string :=
  rstrip_by p (lstrip_by p s).

(** [s.strip()]. *)
Definition strip (s : string) : string := strip_by isspace s.

(** [str.lower] on code points below 256: A-Z and the Latin-1 capitals
    (0xC0-0xDE without the multiplication sign 0xD7) move up by 32. *)
Definition lower_char (c : ascii) : ascii :=
  let n := N_of_ascii c in
  if (((65 <=? n) && (n <=? 90))
      || ((192 <=? n) && (n <=? 222) && negb (n =? 215)))%N
  then ascii_of_N (n + 32) else c.

Fixpoint lower (s : string) : string :=
  match s with
  | EmptyString => EmptyString
  | String c s' => String (lower_char c) (lower s')
  end.

(** [s.replace(old, new)] for a non-empty [old] (it is a literal at every
    call site): occurrences are found left to right and do not overlap.
    [skip] counts the characters of the current occurrence still to be
    dropped. *)
Fixpoint replace_aux (old new : string) (skip : nat) (s : string) : string :=
  match s with
  | EmptyString => EmptyString
  | String c s' =>
      match skip with
      | S k => replace_aux old new k s'
      | O =>
          if prefix old s
          then new ++ replace_aux old new (String.length old - 1) s'
          else String c (replace_aux old new 0 s')
      end
  end.

Definition replace (old new s : string) : string := replace_aux old new 0 s.

(** The line feed, written [\n] in the sources. *)
Definition nl : string := String (ascii_of_nat 10) EmptyString.

(** [sep.join(parts)]. *)
Fixpoint join (sep : string) (parts : list string) : string :=
  match parts with
  | [] => EmptyString
  | [p] => p
  | p :: ps => p ++ sep ++ join sep ps
  end.

(** [str(n)] for an [int]. *)
Definition str_of_int (z : Z) : string := NilZero.string_of_int (Z.to_int z).

(** [xs[i]] on a list, negative indices counting from the end. *)
Definition list_getitem {A} (xs : list A) (i : Z) : res A :=
  let n := Z.of_nat (List.length xs) in
  let j := if (i <? 0)%Z then (i + n)%Z else i in
  if ((j <? 0) || (n <=? j))%Z then Raise IndexError
  else match nth_error xs (Z.to_nat j) with
       | Some x => Ok x
       | None => Raise IndexError
       end.

End Py.

Export Py.

Notation "x <- m ;; k" := (Py.bind m (fun x => k))
(at level 61, m at next level, right associativity).

(* ================================================================= *)
(** ** JSON values: what [json.loads] produces and [AnalyticsEngine.run] consumes *)

Module Json.

(** Numbers are the integers; JSON floats are outside the model.
    An object is its list of key/value pairs, keys distinct. *)
Inductive json : Type :=
| JNull
| JBool (b : bool)
| JNum (z : Z)
| JStr (s : string)
| JList (l : list json)
| JObj (kvs : list (string * json)).

Fixpoint assoc {V} (k : string) (kvs : list (string * V)) : option V :=
  match kvs with
  | [] => None
  | (k', v) :: rest => if String.eqb k k' then Some v else assoc k rest
  end.

(** [obj[key]] for a string [key]: a [dict] raises [KeyError] when the key is
    missing; a list, string, number, bool or None raises [TypeError]. *)
Definition getitem (obj : json) (key : string) : res json :=
  match obj with
  | JObj kvs =>
      match assoc key kvs with
      | Some v => Ok v
      | None => Raise (KeyError key)
      end
  | _ => Raise TypeError
  end.

Definition chars (s : string) : list json :=
  map (fun c => JStr (String c EmptyString)) (list_ascii_of_string s).

(** The items a [for] loop draws from a value: the elements of a list, the
    keys of a dict, the characters of a string; anything else is not
    iterable. *)
Definition iterate (v : json) : res (list json) :=
  match v with
  | JList l => Ok l
  | JObj kvs => Ok (map (fun kv => JStr (fst kv)) kvs)
  | JStr s => Ok (chars s)
  | _ => Raise TypeError
  end.

(** [v == s] for a string literal [s]. *)
Definition eq_str (v : json) (s : string) : bool :=
  match v with
  | JStr s' => String.eqb s' s
  | _ => false
  end.

(** [v in [s1; ...; sn]] for string literals. *)
Definition in_strs (v : json) (ss : list string) : bool :=
  existsb (eq_str v) ss.

(** [str(v)] and, for the items of a container, [repr(v)].  The rendering of
    a string inside a container is Python's for strings without quotes,
    backslashes or control characters. *)
Fixpoint repr (v : json) : string :=
  match v with
  | JNull => "None"
  | JBool true => "True"
  | JBool false => "False"
  | JNum z => str_of_int z
  | JStr s => "'" ++ s ++ "'"
  | JList l => "[" ++ Py.join ", " (map repr l) ++ "]"
  | JObj kvs =>
      "{" ++ Py.join ", "
               (map (fun kv => ("'" ++ fst kv ++ "': " ++ repr (snd kv))%string)
                    kvs)
          ++ "}"
  end.

Definition str (v : json) : string :=
  match v with
  | JStr s => s
  | _ => repr v
  end.

End Json.

Export Json.

(* ================================================================= *)
(** ** The fragment of pandas used by [AnalyticsEngine.run] *)

Module Pandas.

(** A cell of the dataset: missing (NaN/None), a whole number, or a string.
    Decimal numbers are outside the model: a column that holds one is a
    column of 64-bit floats, whose arithmetic is not modelled. *)
Inductive cell : Type :=
| Null
| Num (z : Z)
| Str (s : string).

(** The range of a 64-bit integer and the wrap-around of its arithmetic. *)
Definition int64_min : Z := (- 2 ^ 63)%Z.
Definition int64_max : Z := (2 ^ 63 - 1)%Z.

Definition in_int64 (z : Z) : bool :=
  (int64_min <=? z)%Z && (z <=? int64_max)%Z.

Definition wrap64 (z : Z) : Z := ((z + 2 ^ 63) mod 2 ^ 64 - 2 ^ 63)%Z.

(** The dtype pandas gives a column of such cells: [int64] when every cell
    is a whole number in the range of int64, [float64] when some cell is
    missing and none is a string, [object] otherwise.  Selecting rows
    (filter, sort, limit) keeps the dtype of a column. *)
Inductive dtype : Type :=
| int64
| float64
| object.

(** The value of a reduction: NaN, an integer, or a number with two decimals
    given in hundredths ([Dec2 1234] is 12.34). *)
Inductive scalar : Type :=
| NaN
| Int (z : Z)
| Dec2 (hundredths : Z).

(** A DataFrame: column labels (distinct) and rows, cells in column order. *)
Record DataFrame : Type := mkDataFrame {
  columns : list string;
  rows : list (list cell)
}.

Definition cell_eqb (a b : cell) : bool :=
  match a, b with
  | Null, Null => true
  | Num x, Num y => (x =? y)%Z
  | Str s, Str t => String.eqb s t
  | _, _ => false
  end.

(** Order of group keys and sort keys: numbers by value, strings by code
    point; where both occur together (group keys) numbers come first. *)
Definition cell_leb (a b : cell) : bool :=
  match a, b with
  | Null, _ => true
  | _, Null => false
  | Num x, Num y => (x <=? y)%Z
  | Num _, Str _ => true
  | Str _, Num _ => false
  | Str s, Str t => String.leb s t
  end.

Definition is_null (c : cell) : bool :=
  match c with Null => true | _ => false end.

Definition is_str (c : cell) : bool :=
  match c with Str _ => true | _ => false end.

Definition is_num (c : cell) : bool :=
  match c with Num _ => true | _ => false end.

Definition is_int64 (c : cell) : bool :=
  match c with Num z => in_int64 z | _ => false end.

Definition column_dtype (s : list cell) : dtype :=
  if existsb is_str s then object
  else if existsb is_null s then float64
  else if forallb is_int64 s then int64
  else object.

Fixpoint index_of (c : string) (cols : list string) : option nat :=
  match cols with
  | [] => None
  | c' :: rest =>
      if String.eqb c c' then Some 0%nat
      else option_map S (index_of c rest)
  end.

Definition cell_at (i : nat) (row : list cell) : cell := nth i row Null.

(** [df[col]] on a DataFrame: the column as a Series, [KeyError] if absent. *)
Definition df_getitem (df : DataFrame) (col : string) : res (list cell) :=
  match index_of col (columns df) with
  | Some i => Ok (map (cell_at i) (rows df))
  | None => Raise (KeyError col)
  end.

(** [df.copy()]. *)
Definition copy (df : DataFrame) : DataFrame := df.

(** [series.dropna()]. *)
Definition dropna (s : list cell) : list cell :=
  filter (fun c => negb (is_null c)) s.

(** [series.unique()]: distinct values in order of first occurrence. *)
Fixpoint unique (s : list cell) : list cell :=
  match s with
  | [] => []
  | c :: rest => c :: filter (fun d => negb (cell_eqb d c)) (unique rest)
  end.

(** [series.astype(str)] on one cell of a column of dtype [dt]: a string is
    itself, a whole number is written as Python writes the int in a column
    of integers or of objects and as it writes the float in a column of
    floats ([3] is "3.0" there).  A missing cell gives [None]: pandas 2
    renders it as "nan", pandas 3 leaves it missing. *)
Definition cell_astype_str (dt : dtype) (c : cell) : option string :=
  match c with
  | Null => None
  | Num z =>
      match dt with
      | float64 => Some (str_of_int z ++ ".0")%string
      | _ => Some (str_of_int z)
      end
  | Str s => Some s
  end.

(** The whole numbers that a 64-bit float holds exactly and prints without
    an exponent. *)
Definition float_exact (c : cell) : bool :=
  match c with
  | Num z => (Z.abs z <=? 2 ^ 53)%Z
  | _ => true
  end.

Definition filter_match (dt : dtype) (val : string) (c : cell) : bool :=
  match cell_astype_str dt c with
  | Some t => String.eqb (lower t) val
  | None => false
  end.

(** The two cases of a filter that are left out: the value "nan" on a column
    with a missing cell, where the versions of pandas differ, and a column
    of floats with a whole number beyond 2^53, which is not stored exactly. *)
Definition filter_left_out (dt : dtype) (val : string) (cells : list cell)
    : bool :=
  (existsb is_null cells && String.eqb val "nan")
  || match dt with
     | float64 => negb (forallb float_exact cells)
     | _ => false
     end.

(** [df[df[col].astype(str).str.lower() == val]] where the column has dtype
    [dt]. *)
Definition df_filter_eq (dt : dtype) (df : DataFrame) (col val : string)
    : res DataFrame :=
  match index_of col (columns df) with
  | Some i =>
      if filter_left_out dt val (map (cell_at i) (rows df)) then Unmodelled
      else Ok (mkDataFrame (columns df)
                 (filter (fun r => filter_match dt val (cell_at i r)) (rows df)))
  | None => Raise (KeyError col)
  end.

(** *** Reductions of a Series

    The reductions are modelled on a column of dtype int64.  On a column of
    floats (decimals, or whole numbers with a missing cell among them) they
    are computed in floating point, and on a column of strings they
    concatenate, compare lexicographically or fail: both are left out. *)

Fixpoint numeric_values (s : list cell) : res (list Z) :=
  match s with
  | [] => Ok []
  | Num z :: rest =>
      if in_int64 z then zs <- numeric_values rest ;; Ok (z :: zs)
      else Unmodelled
  | _ :: rest => Unmodelled
  end.

Definition zsum (zs : list Z) : Z := fold_right Z.add 0%Z zs.

Fixpoint zmax (z : Z) (zs : list Z) : Z :=
  match zs with
  | [] => z
  | y :: rest => Z.max z (zmax y rest)
  end.

Fixpoint zmin (z : Z) (zs : list Z) : Z :=
  match zs with
  | [] => z
  | y :: rest => Z.min z (zmin y rest)
  end.

(** Every sum of some of the values is a whole number that a 64-bit float
    holds exactly, so that adding them as floats, in any order, is exact. *)
Definition exact_in_float64 (zs : list Z) : bool :=
  (zsum (map Z.abs zs) <=? 2 ^ 53)%Z.

(** The integer nearest to [a / d] for [d > 0], ties to the even one. *)
Definition round_half_even (a d : Z) : Z :=
  let q := (a / d)%Z in
  let r := (a mod d)%Z in
  if (2 * r <? d)%Z then q
  else if (d <? 2 * r)%Z then (q + 1)%Z
  else if Z.even q then q else (q + 1)%Z.

(** [round(x, 2)], in hundredths, of the float nearest to the quotient [x]
    of two whole numbers that floats hold exactly.  The float differs from
    the quotient by a relative error of 2^-53 at most, which cannot move
    [100 * x] across a half when the numerator is below 2^44 (a quotient
    that is not itself at a half is then at least [1 / (2 * Qden x)] away
    from one).  A quotient exactly at a half is rounded to the even
    neighbour when the float holds it exactly (its eightfold is whole);
    otherwise the rounding error of the float decides, and the case is left
    out. *)
Definition round2 (x : Q) : res scalar :=
  let a := (100 * Qnum x)%Z in
  let d := Zpos (Qden x) in
  if (2 ^ 44 <? Z.abs (Qnum x))%Z || (2 ^ 53 <? d)%Z then Unmodelled
  else if (2 * (a mod d) =? d)%Z && negb ((8 * Qnum x) mod d =? 0)%Z
       then Unmodelled
  else Ok (Dec2 (round_half_even a d)).

(** [series.mean()] as a quotient: [None] stands for NaN (no value to
    average). *)
Definition zmean (zs : list Z) : option Q :=
  match zs with
  | [] => None
  | _ => Some (Qmake (zsum zs) (Pos.of_nat (List.length zs)))
  end.

Definition round2_opt (m : option Q) : res scalar :=
  match m with
  | Some x => round2 x
  | None => Ok NaN
  end.

(** [series.sum()] on int64: numpy adds in 64 bits and wraps around
    silently. *)
Definition series_sum (s : list cell) : res scalar :=
  zs <- numeric_values s ;; Ok (Int (wrap64 (zsum zs))).

(** [series.mean()] on int64: the values are added as floats. *)
Definition series_mean (s : list cell) : res (option Q) :=
  zs <- numeric_values s ;;
  if exact_in_float64 zs then Ok (zmean zs) else Unmodelled.

Definition series_max (s : list cell) : res scalar :=
  zs <- numeric_values s ;;
  Ok (match zs with [] => NaN | z :: rest => Int (zmax z rest) end).

Definition series_min (s : list cell) : res scalar :=
  zs <- numeric_values s ;;
  Ok (match zs with [] => NaN | z :: rest => Int (zmin z rest) end).

Definition series_nunique (s : list cell) : scalar :=
  Int (Z.of_nat (List.length (unique (dropna s)))).

(** A reduction that is modelled on columns of dtype int64 only. *)
Definition on_int64 {A} (dt : dtype) (m : res A) : res A :=
  match dt with
  | int64 => m
  | _ => Unmodelled
  end.

(** The reductions of one group of [groupby(...)[col]]: some versions of
    pandas add and compare the int64 values of a group as floats, so the sum
    and the extrema are given where floats hold them exactly. *)
Definition group_sum (s : list cell) : res scalar :=
  zs <- numeric_values s ;;
  if exact_in_float64 zs then Ok (Int (zsum zs)) else Unmodelled.

Definition group_max (s : list cell) : res scalar :=
  zs <- numeric_values s ;;
  if exact_in_float64 zs
  then Ok (match zs with [] => NaN | z :: rest => Int (zmax z rest) end)
  else Unmodelled.

Definition group_min (s : list cell) : res scalar :=
  zs <- numeric_values s ;;
  if exact_in_float64 zs
  then Ok (match zs with [] => NaN | z :: rest => Int (zmin z rest) end)
  else Unmodelled.

(** *** Sorting

    [sort_values] puts missing values last.  A descending sort reverses the
    input, sorts it in ascending order and reverses the outcome.  The sort is
    an insertion sort; the order pandas gives to equal keys is not specified
    by its default algorithm. *)

Fixpoint insert {A} (leb : A -> A -> bool) (x : A) (l : list A) : list A :=
  match l with
  | [] => [x]
  | y :: l' => if leb x y then x :: l else y :: insert leb x l'
  end.

Fixpoint isort {A} (leb : A -> A -> bool) (l : list A) : list A :=
  match l with
  | [] => []
  | x :: l' => insert leb x (isort leb l')
  end.

Definition sort_values {A} (isna : A -> bool) (leb : A -> A -> bool)
    (ascending : bool) (l : list A) : list A :=
  let present := filter (fun x => negb (isna x)) l in
  let missing := filter isna l in
  if ascending then isort leb present ++ missing
  else rev (isort leb (rev present)) ++ rev missing.

(** The value of a scalar in hundredths, to compare integers with decimals. *)
Definition hundredths_of (x : scalar) : Z :=
  match x with
  | NaN => 0
  | Int z => 100 * z
  | Dec2 h => h
  end.

Definition scalar_isna (x : scalar) : bool :=
  match x with NaN => true | _ => false end.

Definition scalar_leb (x y : scalar) : bool :=
  (hundredths_of x <=? hundredths_of y)%Z.

(** A Series indexed by group keys, as [groupby(...)[col].sum()] returns it. *)
Definition entries : Type := list (cell * scalar).

(** [series.sort_values(ascending=...)]. *)
Definition series_sort_values (ascending : bool) (s : entries) : entries :=
  sort_values (fun e => scalar_isna (snd e))
              (fun e1 e2 => scalar_leb (snd e1) (snd e2)) ascending s.

(** [df.sort_values(by=col, ascending=...)]: numbers and strings in one
    column cannot be compared. *)
Definition df_sort_values (df : DataFrame) (col : string) (ascending : bool)
    : res DataFrame :=
  match index_of col (columns df) with
  | Some i =>
      let keys := map (cell_at i) (rows df) in
      if existsb is_num keys && existsb is_str keys then Raise TypeError
      else Ok (mkDataFrame (columns df)
                 (sort_values (fun r => is_null (cell_at i r))
                              (fun r1 r2 => cell_leb (cell_at i r1) (cell_at i r2))
                              ascending (rows df)))
  | None => Raise (KeyError col)
  end.

(** [x.head(n)] on a DataFrame or Series: the first [n] items, or all but the
    last [-n] when [n] is negative. *)
Definition head {A} (n : Z) (l : list A) : list A :=
  if (0 <=? n)%Z then firstn (Z.to_nat n) l
  else firstn (Z.to_nat (Z.of_nat (List.length l) + n)) l.

(** [series[label]] on a Series indexed by group keys, for a string label. *)
Fixpoint series_getitem (s : entries) (label : string) : res scalar :=
  match s with
  | [] => Raise (KeyError label)
  | (Str k, x) :: rest =>
      if String.eqb k label then Ok x else series_getitem rest label
  | _ :: rest => series_getitem rest label
  end.

(** *** Grouping

    [df.groupby(by)] drops the rows whose key is missing and orders the groups
    by key. *)

Definition group_keys (df : DataFrame) (i : nat) : list cell :=
  isort cell_leb (unique (dropna (map (cell_at i) (rows df)))).

(** The cells of column [j] in the rows whose key (column [i]) is [k]. *)
Definition group_column (df : DataFrame) (i j : nat) (k : cell) : list cell :=
  map (cell_at j) (filter (fun r => cell_eqb (cell_at i r) k) (rows df)).

Fixpoint reduce_groups (f : list cell -> res scalar) (df : DataFrame)
    (i j : nat) (keys : list cell) : res entries :=
  match keys with
  | [] => Ok []
  | k :: rest =>
      x <- f (group_column df i j k) ;;
      xs <- reduce_groups f df i j rest ;;
      Ok ((k, x) :: xs)
  end.

(** [df.groupby(by)[col].f()] for a reduction [f]; selecting a column the
    frame does not have raises [KeyError("Column not found: ...")]. *)
Definition groupby_reduce (f : list cell -> res scalar) (df : DataFrame)
    (by_ col : string) : res entries :=
  match index_of by_ (columns df), index_of col (columns df) with
  | Some i, Some j => reduce_groups f df i j (group_keys df i)
  | None, _ => Raise (KeyError by_)
  | _, None => Raise (KeyError ("Column not found: " ++ col))
  end.

Definition count_cell (k : cell) (l : list cell) : Z :=
  Z.of_nat (List.length (filter (cell_eqb k) l)).

Fixpoint groupby_head_rows (i : nat) (n : Z) (all seen : list cell)
    (rs : list (list cell)) : list (list cell) :=
  match rs with
  | [] => []
  | r :: rest =>
      let k := cell_at i r in
      let bound := if (0 <=? n)%Z then n else (count_cell k all + n)%Z in
      let keep := negb (is_null k) && (count_cell k seen <? bound)%Z in
      (if keep then [r] else []) ++ groupby_head_rows i n all (k :: seen) rest
  end.

(** [df.groupby(by).head(n)]: the first [n] rows of every group (all but the
    last [-n] for a negative [n]), as a DataFrame in the original row order. *)
Definition groupby_head (df : DataFrame) (by_ : string) (n : Z) : res DataFrame :=
  match index_of by_ (columns df) with
  | Some i =>
      Ok (mkDataFrame (columns df)
            (groupby_head_rows i n (map (cell_at i) (rows df)) [] (rows df)))
  | None => Raise (KeyError by_)
  end.

(** *** Methods of a numpy scalar (an item of a reduced Series) *)

Definition np_mean (x : scalar) : option Q :=
  match x with
  | NaN => None
  | Int z => Some (inject_Z z)
  | Dec2 h => Some (Qmake h 100)
  end.

End Pandas.

Export Pandas.

(* ================================================================= *)
(** ** [models/schema/schema_builder.py] *)

Module SchemaBuilder.

(** A Python dict from semantic key to raw column name, in insertion order. *)
Definition Schema : Type := list (string * string).

(** [d[k] = v]: an existing key keeps its position and takes the new value. *)
Fixpoint dict_set {V} (k : string) (v : V) (d : list (string * V))
    : list (string * V) :=
  match d with
  | [] => [(k, v)]
  | (k', v') :: rest =>
      if String.eqb k k' then (k, v) :: rest else (k', v') :: dict_set k v rest
  end.

Definition is_lower_alnum (c : ascii) : bool :=
  let n := N_of_ascii c in
  (((97 <=? n) && (n <=? 122)) || ((48 <=? n) && (n <=? 57)))%N.

(** [re.sub(r'[^a-z0-9]+', '_', s)]: [in_run] tells that the previous
    character already belongs to the run being replaced. *)
Fixpoint sub_non_alnum (in_run : bool) (s : string) : string :=
  match s with
  | EmptyString => EmptyString
  | String c s' =>
      if is_lower_alnum c then String c (sub_non_alnum false s')
      else if in_run then sub_non_alnum true s'
      else String "_" (sub_non_alnum true s')
  end.

Definition normalize (col : string) : string :=
  let col := lower col in
  let col := sub_non_alnum false col in
  strip_by (fun c => Ascii.eqb c "_") col.

Definition build_schema (df : DataFrame) : Schema :=
  fold_left (fun schema col => dict_set (normalize col) col schema)
            (columns df) [].

End SchemaBuilder.

Export SchemaBuilder.

(* ================================================================= *)
(** ** [models/core/analytics_engine.py] *)

Module Analytics.

Record AnalyticsEngine : Type := mkAnalyticsEngine {
  df : DataFrame;
  schema : Schema
}.

(** What the local variable [df] of [run] holds between two steps: a
    DataFrame, a DataFrameGroupBy (the frame and the grouping column), or the
    Series of a grouped reduction (the name of its index and its entries). *)
Inductive relation : Type :=
| Rows (d : DataFrame)
| Grouped (d : DataFrame) (by_ : string)
| Keyed (name : string) (s : entries).

(** What [run] returns. *)
Inductive result : Type :=
| RNone
| RScalar (x : scalar)
| RList (l : list cell)
| RMapping (m : entries)
| RRecords (records : list (list (string * cell)))
| RGroupBy (d : DataFrame) (by_ : string).

(** A step either hands the next value of [df] to the loop or returns from
    [run]. *)
Inductive step_result : Type :=
| Next (r : relation)
| Return (v : result).

(** [AnalyticsEngine._col]. *)
Definition _col (self : AnalyticsEngine) (semantic : json) : res string :=
  match semantic with
  | JStr s =>
      match assoc s (schema self) with
      | Some c => Ok c
      | None => Raise (ValueError ("Unknown column: " ++ s))
      end
  | JList _ | JObj _ => Raise TypeError
  | other => Raise (ValueError ("Unknown column: " ++ Json.str other))
  end.

Definition aggregate_ops : list string :=
  ["sum"; "avg"; "max"; "min"; "count_unique"].

(** The dtype of a column of the dataset of the engine.  Every frame that
    [run] works on is a selection of the rows of that dataset, and its
    columns have the dtypes they have there. *)
Definition source_dtype (self : AnalyticsEngine) (col : string) : dtype :=
  match df_getitem (df self) col with
  | Ok s => column_dtype s
  | _ => object
  end.

(** The inner [if]/[elif] chain of the aggregation branch, on a Series of
    dtype [dt]; [None] when no arm applies. *)
Definition reduce (op : json) : option (dtype -> list cell -> res scalar) :=
  if eq_str op "sum" then Some (fun dt s => on_int64 dt (series_sum s))
  else if eq_str op "avg"
       then Some (fun dt s =>
                    on_int64 dt (m <- series_mean s ;; round2_opt m))
  else if eq_str op "max" then Some (fun dt s => on_int64 dt (series_max s))
  else if eq_str op "min" then Some (fun dt s => on_int64 dt (series_min s))
  else if eq_str op "count_unique" then Some (fun _ s => Ok (series_nunique s))
  else None.

(** The chain of the grouped case, on the cells of one group. *)
Definition reduce_group (op : json)
    : option (dtype -> list cell -> res scalar) :=
  if eq_str op "sum" then Some (fun dt s => on_int64 dt (group_sum s))
  else if eq_str op "avg"
       then Some (fun dt s =>
                    on_int64 dt (m <- series_mean s ;; round2_opt m))
  else if eq_str op "max" then Some (fun dt s => on_int64 dt (group_max s))
  else if eq_str op "min" then Some (fun dt s => on_int64 dt (group_min s))
  else if eq_str op "count_unique" then Some (fun _ s => Ok (series_nunique s))
  else None.

(** The same chain when [df[col]] is one item of a reduced Series (a numpy
    scalar): it has [sum], [mean], [max], [min] but no [nunique]. *)
Definition reduce_item (op : json) : option (scalar -> res scalar) :=
  if eq_str op "sum" then Some (fun x => Ok x)
  else if eq_str op "avg" then Some (fun x => round2_opt (np_mean x))
  else if eq_str op "max" then Some (fun x => Ok x)
  else if eq_str op "min" then Some (fun x => Ok x)
  else if eq_str op "count_unique" then Some (fun _ => Raise AttributeError)
  else None.

(** [g[col]] on a DataFrameGroupBy. *)
Definition groupby_getitem (d : DataFrame) (col : string) : res unit :=
  match index_of col (columns d) with
  | Some _ => Ok tt
  | None => Raise (KeyError ("Column not found: " ++ col))
  end.

(** Calling [g.name(...)] for a [name] that is no method of DataFrameGroupBy:
    the attribute is looked up among the columns, and a column selection is
    not callable. *)
Definition groupby_call_missing (d : DataFrame) (name : string) : exception :=
  match index_of name (columns d) with
  | Some _ => TypeError
  | None => AttributeError
  end.

Definition set_rows (d : DataFrame) (rs : list (list cell)) : DataFrame :=
  mkDataFrame (columns d) rs.

(** One iteration of the loop of [run]. *)
Definition exec_step (self : AnalyticsEngine) (rel : relation) (step : json)
    : res step_result :=
  op <- getitem step "op" ;;
  if eq_str op "filter" then
    c <- getitem step "column" ;;
    col <- _col self c ;;
    v <- getitem step "value" ;;
    let val := lower (Json.str v) in
    match rel with
    | Rows d =>
        d' <- df_filter_eq (source_dtype self col) d col val ;;
        Ok (Next (Rows d'))
    | Grouped d _ => _ <- groupby_getitem d col ;; Raise AttributeError
    | Keyed _ s => _ <- series_getitem s col ;; Raise AttributeError
    end
  else if eq_str op "groupby" then
    c <- getitem step "column" ;;
    col <- _col self c ;;
    match rel with
    | Rows d =>
        match index_of col (columns d) with
        | Some _ => Ok (Next (Grouped d col))
        | None => Raise (KeyError col)
        end
    | Grouped d _ => Raise (groupby_call_missing d "groupby")
    | Keyed name _ =>
        (* grouping a Series by the name of its index gives a SeriesGroupBy,
           an object the rest of [run] is not written for *)
        if String.eqb col name then Unmodelled else Raise (KeyError col)
    end
  else if in_strs op aggregate_ops then
    m <- getitem step "metric" ;;
    col <- _col self m ;;
    match rel with
    | Grouped d by_ =>
        match reduce_group op with
        | Some f =>
            s <- groupby_reduce (f (source_dtype self col)) d by_ col ;;
            Ok (Next (Keyed by_ s))
        | None => Ok (Next rel)
        end
    | Rows d =>
        match reduce op with
        | Some f =>
            s <- df_getitem d col ;;
            x <- f (source_dtype self col) s ;;
            Ok (Return (RScalar x))
        | None => Ok (Next rel)
        end
    | Keyed _ s =>
        match reduce_item op with
        | Some f =>
            x <- series_getitem s col ;; y <- f x ;; Ok (Return (RScalar y))
        | None => Ok (Next rel)
        end
    end
  else if eq_str op "list_unique" then
    m <- getitem step "metric" ;;
    col <- _col self m ;;
    match rel with
    | Rows d => s <- df_getitem d col ;; Ok (Return (RList (unique (dropna s))))
    | Grouped d _ =>
        (* [dropna] of a group-by object is its boolean option, not a method *)
        _ <- groupby_getitem d col ;; Raise TypeError
    | Keyed _ s => _ <- series_getitem s col ;; Raise AttributeError
    end
  else if eq_str op "sort" then
    o <- getitem step "order" ;;
    let ascending := eq_str o "asc" in
    match rel with
    | Keyed name s => Ok (Next (Keyed name (series_sort_values ascending s)))
    | Rows d =>
        b <- getitem step "by" ;;
        col <- _col self b ;;
        d' <- df_sort_values d col ascending ;; Ok (Next (Rows d'))
    | Grouped d _ =>
        b <- getitem step "by" ;;
        col <- _col self b ;;
        Raise (groupby_call_missing d "sort_values")
    end
  else if eq_str op "limit" then
    v <- getitem step "value" ;;
    match rel, v with
    | Rows d, JNum n => Ok (Next (Rows (set_rows d (head n (rows d)))))
    | Rows d, JNull => Ok (Next rel)
    | Keyed name s, JNum n => Ok (Next (Keyed name (head n s)))
    | Keyed name s, JNull => Ok (Next rel)
    | Grouped d by_, JNum n => d' <- groupby_head d by_ n ;; Ok (Next (Rows d'))
    | Grouped _ _, _ => Unmodelled
    | _, _ => Raise TypeError
    end
  else Raise (ValueError ("Unknown operation: " ++ Json.str op)).

(** [df.to_dict(orient="records")]. *)
Definition to_records (d : DataFrame) : list (list (string * cell)) :=
  map (combine (columns d)) (rows d).

(** The final [if]/[elif]/[else] of [run]. *)
Definition final_output (rel : relation) : result :=
  match rel with
  | Keyed _ s => RMapping s
  | Rows d => RRecords (to_records d)
  | Grouped d by_ => RGroupBy d by_
  end.

(** The [for] loop of [run]: [Next rel] when the steps are exhausted with
    [df] bound to [rel], [Return v] when a step returned [v]. *)
Fixpoint loop (self : AnalyticsEngine) (rel : relation) (steps : list json)
    : res step_result :=
  match steps with
  | [] => Ok (Next rel)
  | step :: rest =>
      r <- exec_step self rel step ;;
      match r with
      | Next rel' => loop self rel' rest
      | Return v => Ok (Return v)
      end
  end.

(** The loop followed by the final output. *)
Definition run_steps (self : AnalyticsEngine) (rel : relation)
    (steps : list json) : res result :=
  r <- loop self rel steps ;;
  match r with
  | Next rel' => Ok (final_output rel')
  | Return v => Ok v
  end.

Definition run_value (self : AnalyticsEngine) (plan : json) : res result :=
  ty <- getitem plan "type" ;;
  if negb (eq_str ty "analytics") then Ok RNone
  else
    let d := copy (df self) in
    steps_v <- getitem plan "steps" ;;
    steps <- iterate steps_v ;;
    run_steps self (Rows d) steps.

(** [AnalyticsEngine.run]: the value returned (or the exception raised)
    together with the engine after the call.  The body works on a copy of
    [self.df], assigns to no attribute of [self] and calls no mutating method,
    so the engine after the call is the engine before it. *)
Definition run (self : AnalyticsEngine) (plan : json)
    : res result * AnalyticsEngine :=
  (run_value self plan, self).

(** The plan [{"type": "analytics", "steps": [...]}]. *)
Definition analytics_plan (steps : list json) : json :=
  JObj [("type", JStr "analytics"); ("steps", JList steps)].

End Analytics.

Export Analytics.

(* ================================================================= *)
(** ** [models/core/planner.py] *)

Module PlannerModule.

Record Planner : Type := mkPlanner {
  planner_schema : Schema;
  prompt : string
}.

(** The two Markdown fence markers removed from a response. *)
Definition fence_json : string := "```json".
Definition fence : string := "```".

(** The lines
    [raw = response.strip()] and
    [raw = raw.replace("```json","").replace("```","").strip()]. *)
Definition clean (response : string) : string :=
  let raw := strip response in
  strip (replace fence "" (replace fence_json "" raw)).

(** The fallback plan [{"type":"explain"}]. *)
Definition explain_plan : json := JObj [("type", JStr "explain")].

Section WithCollaborators.

(** [llm_client.generate], an external call. *)
Variable generate : string -> res string.

(** [json.loads]; [None] when it raises. *)
Variable json_loads : string -> option json.

(** The separator of the schema listing, a space, the arrow U+2192 and a
    space; the arrow lies outside the alphabet of the model. *)
Variable arrow : string.

(** The [try]/[except] around [json.loads]: a bare [except] catches
    everything. *)
Definition parse (raw : string) : json :=
  match json_loads raw with
  | Some v => v
  | None => explain_plan
  end.

(** What [plan] makes of the response of the model. *)
Definition plan_of_response (response : string) : json :=
  parse (clean response).

(** [Planner.plan]. *)
Definition plan (self : Planner) (question : string) : res json :=
  let schema_text :=
    Py.join nl (map (fun kv => (fst kv ++ arrow ++ snd kv)%string)
                    (planner_schema self)) in
  let full_prompt := replace "{schema}" schema_text (prompt self) in
  response <- generate (full_prompt ++ nl ++ "Question: " ++ question) ;;
  Ok (plan_of_response response).

End WithCollaborators.

(** A response wrapped in a fenced block, as in
    [```json\n{"type":"explain"}\n```]. *)
Definition fenced (body : string) : string :=
  fence_json ++ nl ++ body ++ nl ++ fence.

End PlannerModule.

Export PlannerModule.

(* ================================================================= *)
(** ** [models/rag/vectorstore.py], [models/rag/retriever.py] *)

Module VectorStoreModule.

Definition vector : Type := list Q.

(** [faiss.IndexFlatL2]: the dimension and the vectors added so far. *)
Record IndexFlatL2 : Type := mkIndex {
  dim : nat;
  stored : list vector
}.

Record VectorStore : Type := mkVectorStore {
  texts : list string;
  index : IndexFlatL2
}.

(** [np.array(embeddings)] needs rows of one length, then [index.add] rows of
    the dimension of the index; the message of the error numpy raises
    otherwise is abridged. *)
Definition index_add (ix : IndexFlatL2) (xs : list vector) : res IndexFlatL2 :=
  if forallb (fun x => Nat.eqb (List.length x) (dim ix)) xs
  then Ok (mkIndex (dim ix) (stored ix ++ xs))
  else Raise (ValueError "inhomogeneous shape").

(** [VectorStore.__init__]. *)
Definition __init__ (embeddings : list vector) (texts_ : list string)
    : res VectorStore :=
  e0 <- list_getitem embeddings 0 ;;
  let dim_ := List.length e0 in
  ix <- index_add (mkIndex dim_ []) embeddings ;;
  Ok (mkVectorStore texts_ ix).

(** Squared Euclidean distance. *)
Fixpoint dist2 (x y : vector) : Q :=
  match x, y with
  | a :: x', b :: y' => (a - b) * (a - b) + dist2 x' y'
  | _, _ => 0
  end.

(** [index.search(x, k)] for one query: the labels of the [k] nearest stored
    vectors by increasing distance, filled up with [-1] when fewer than [k]
    vectors are stored.  Equal distances are listed in order of insertion. *)
Definition index_search (ix : IndexFlatL2) (x : vector) (k : Z) : res (list Z) :=
  if negb (Nat.eqb (List.length x) (dim ix)) then Raise AssertionError
  else if (k <=? 0)%Z then Raise AssertionError
  else
    let n := List.length (stored ix) in
    let labelled :=
      combine (map Z.of_nat (seq 0 n)) (map (dist2 x) (stored ix)) in
    let ranked :=
      map fst (isort (fun a b => Qle_bool (snd a) (snd b)) labelled) in
    Ok (firstn (Z.to_nat k) ranked ++ repeat (-1)%Z (Z.to_nat k - n)).

Fixpoint map_res {A B} (f : A -> res B) (l : list A) : res (list B) :=
  match l with
  | [] => Ok []
  | a :: rest => b <- f a ;; bs <- map_res f rest ;; Ok (b :: bs)
  end.

(** [VectorStore.search]. *)
Definition search (self : VectorStore) (query_embedding : vector) (k : Z)
    : res (list string) :=
  I <- index_search (index self) query_embedding k ;;
  map_res (fun i => list_getitem (texts self) i) I.

(** The default value of [k]. *)
Definition default_k : Z := 5.

Record Retriever : Type := mkRetriever {
  vectorstore : VectorStore
}.

(** [Retriever.get_context], given the embedding function. *)
Definition get_context (embed : list string -> res (list vector))
    (self : Retriever) (question : string) : res (list string) :=
  embs <- embed [question] ;;
  q_emb <- list_getitem embs 0 ;;
  search (vectorstore self) q_emb default_k.

End VectorStoreModule.

Export VectorStoreModule.

(* ================================================================= *)
(** ** [models/data/loader.py], [models/rag/schema_docs.py],
       [models/rag/dataset_summary.py] *)

Module Loader.

(** [df.empty]: no row or no column. *)
Definition df_empty (d : DataFrame) : bool :=
  match rows d, columns d with
  | [], _ | _, [] => true
  | _, _ => false
  end.

Fixpoint union_columns (seen : list string) (frames : list DataFrame)
    : list string :=
  match frames with
  | [] => seen
  | d :: rest =>
      union_columns
        (fold_left (fun acc c => match index_of c acc with
                                 | Some _ => acc
                                 | None => acc ++ [c]
                                 end) (columns d) seen)
        rest
  end.

(** [pd.concat(frames, ignore_index=True)]: the union of the columns in order
    of appearance, the rows of every frame in turn, a cell missing where a
    frame lacks the column. *)
Definition concat (frames : list DataFrame) : DataFrame :=
  let cols := union_columns [] frames in
  mkDataFrame cols
    (flat_map (fun d =>
       map (fun r => map (fun c => match index_of c (columns d) with
                                   | Some i => cell_at i r
                                   | None => Null
                                   end) cols)
           (rows d)) frames).

(** [load_excel_files]; [sheets path] stands for the parsed sheets of
    [pd.ExcelFile(path)], in the order of [sheet_names]. *)
Fixpoint collect_frames (sheets : string -> res (list DataFrame))
    (file_paths : list string) : res (list DataFrame) :=
  match file_paths with
  | [] => Ok []
  | path :: rest =>
      ds <- sheets path ;;
      more <- collect_frames sheets rest ;;
      Ok (filter (fun d => negb (df_empty d)) ds ++ more)
  end.

Definition load_excel_files (sheets : string -> res (list DataFrame))
    (file_paths : list string) : res DataFrame :=
  all_frames <- collect_frames sheets file_paths ;;
  match all_frames with
  | [] => Raise (ValueError "No data found in uploaded Excel files.")
  | _ =>
      let merged := concat all_frames in
      Ok (mkDataFrame (map strip (columns merged)) (rows merged))
  end.

(** [build_schema_docs]. *)
Definition build_schema_docs (schema : Schema) : list string :=
  map (fun kv => (fst kv ++ " refers to the column '" ++ snd kv
                  ++ "' in the dataset.")%string) schema.

Definition str_of_nat (n : nat) : string := str_of_int (Z.of_nat n).

(** [build_dataset_summary]. *)
Definition build_dataset_summary (d : DataFrame) : string :=
  nl ++ "This Excel file contains " ++ str_of_nat (List.length (rows d))
     ++ " rows and " ++ str_of_nat (List.length (columns d)) ++ " columns." ++ nl
     ++ "It includes business data related to products, vendors, plants, costs, categories, quality ratings, and regions."
     ++ nl
     ++ "It is used for supply chain, procurement, and inventory analysis."
     ++ nl.

End Loader.

Export Loader.

(* ================================================================= *)
(** ** [app/services/rag_service.py] *)

Module RagService.

(** [RAGState]; [None] in Python is [None] here. *)
Record RAGState : Type := mkRAGState {
  st_df : option DataFrame;
  st_schema : option Schema;
  st_planner : option Planner;
  st_engine : option AnalyticsEngine;
  st_retriever : option Retriever;
  initialized : bool;
  file_count : nat
}.

(** [RAGState.__init__]. *)
Definition initial_state : RAGState :=
  mkRAGState None None None None None false 0.

(** [RAGState.is_initialized]. *)
Definition is_initialized (st : RAGState) : bool :=
  initialized st && match st_df st with Some _ => true | None => false end.

(** What [initialize_rag_system] reads from outside the process: the files
    matched in the upload directory ([*.xlsx], then [*.xls], then [*.csv]),
    the sheets of each file, the planner prompt file and the embedding
    service. *)
Record World : Type := mkWorld {
  excel_files : list string;
  sheets : string -> res (list DataFrame);
  planner_prompt : res string;
  embed : list string -> res (list vector)
}.

Definition set_df (st : RAGState) (d : DataFrame) : RAGState :=
  mkRAGState (Some d) (st_schema st) (st_planner st) (st_engine st)
             (st_retriever st) (initialized st) (file_count st).

Definition set_schema (st : RAGState) (s : Schema) : RAGState :=
  mkRAGState (st_df st) (Some s) (st_planner st) (st_engine st)
             (st_retriever st) (initialized st) (file_count st).

Definition set_planner_engine (st : RAGState) (p : Planner)
    (e : AnalyticsEngine) : RAGState :=
  mkRAGState (st_df st) (st_schema st) (Some p) (Some e)
             (st_retriever st) (initialized st) (file_count st).

Definition set_retriever (st : RAGState) (r : option Retriever) : RAGState :=
  mkRAGState (st_df st) (st_schema st) (st_planner st) (st_engine st)
             r (initialized st) (file_count st).

Definition set_initialized (st : RAGState) (b : bool) : RAGState :=
  mkRAGState (st_df st) (st_schema st) (st_planner st) (st_engine st)
             (st_retriever st) b (file_count st).

Definition set_file_count (st : RAGState) (n : nat) : RAGState :=
  mkRAGState (st_df st) (st_schema st) (st_planner st) (st_engine st)
             (st_retriever st) (initialized st) n.

(** Step 5 of [initialize_rag_system], the inner [try]/[except]: any failure
    leaves the retriever disabled. *)
Definition build_retriever (w : World) (s : Schema) (d : DataFrame)
    : option Retriever :=
  let schema_docs := build_schema_docs s in
  let dataset_doc := build_dataset_summary d in
  let rag_texts := schema_docs ++ [dataset_doc] in
  match embed w rag_texts with
  | Ok rag_embeddings =>
      match __init__ rag_embeddings rag_texts with
      | Ok vs => Some (mkRetriever vs)
      | _ => None
      end
  | _ => None
  end.

(** [initialize_rag_system]: the value returned and the global state after
    the call, for one call running alone.  The outer [except] marks the state
    uninitialized and keeps what was assigned before the failure. *)
Definition initialize_rag_system (w : World) (force_rebuild : bool)
    (st : RAGState) : bool * RAGState :=
  match excel_files w with
  | [] => (false, st)
  | _ =>
      if is_initialized st && negb force_rebuild
         && Nat.eqb (List.length (excel_files w)) (file_count st)
      then (true, st)
      else
        match load_excel_files (sheets w) (excel_files w) with
        | Ok d =>
            let st := set_df st d in
            let s := build_schema d in
            let st := set_schema st s in
            match planner_prompt w with
            | Ok p =>
                let st :=
                  set_planner_engine st (mkPlanner s p) (mkAnalyticsEngine d s) in
                let st := set_retriever st (build_retriever w s d) in
                let st := set_file_count st (List.length (excel_files w)) in
                let st := set_initialized st true in
                (true, st)
            | _ => (false, set_initialized st false)
            end
        | _ => (false, set_initialized st false)
        end
  end.

(** [rebuild_rag_system]. *)
Definition rebuild_rag_system (w : World) (st : RAGState) : bool * RAGState :=
  initialize_rag_system w true st.

End RagService.

Export RagService.

(* ================================================================= *)
(** ** The vocabulary of the specification *)

Module Spec.



(** The sum of a list of numbers. *)
Definition total (vals : list Z) : Z := fold_left Z.add vals 0%Z.

(** [is_aggregate kind vals x]: [x] is the aggregate [kind] of the numbers
    [vals], in the words of the specification: the sum; the mean rounded to
    two decimals (at most half a hundredth away from the mean); the greatest
    and the least value; the number of distinct values.  The extrema and the
    mean of no value at all are NaN. *)
Inductive is_aggregate : string -> list Z -> scalar -> Prop :=
| agg_sum vals :
    is_aggregate "sum" vals (Int (total vals))
| agg_avg_none :
    is_aggregate "avg" [] NaN
| agg_avg vals h :
    vals <> [] ->
    (2 * Z.abs (h * Z.of_nat (List.length vals) - 100 * total vals)
       <= Z.of_nat (List.length vals))%Z ->
    is_aggregate "avg" vals (Dec2 h)
| agg_max_none :
    is_aggregate "max" [] NaN
| agg_max vals m :
    In m vals -> (forall v, In v vals -> (v <= m)%Z) ->
    is_aggregate "max" vals (Int m)
| agg_min_none :
    is_aggregate "min" [] NaN
| agg_min vals m :
    In m vals -> (forall v, In v vals -> (m <= v)%Z) ->
    is_aggregate "min" vals (Int m)
| agg_count_unique vals distinct :
    NoDup distinct -> (forall v, In v distinct <-> In v vals) ->
    is_aggregate "count_unique" vals (Int (Z.of_nat (List.length distinct))).


(** The distinct non-null values of a column in the order in which they first
    occur: the column is read from the start and a value is kept the first
    time it is seen. *)
Fixpoint distinct_from (seen : list cell) (s : list cell) : list cell :=
  match s with
  | [] => []
  | c :: rest =>
      if is_null c || existsb (cell_eqb c) seen then distinct_from seen rest
      else c :: distinct_from (c :: seen) rest
  end.

Definition distinct_in_order (s : list cell) : list cell := distinct_from [] s.

(** [resolves_key rel step k]: executed on [rel], the step resolves the
    semantic key [k] through the schema: the column of a filter or group-by,
    the metric of an aggregate or of [list_unique], the [by] of a sort of
    anything but a reduced Series. *)
Inductive resolves_key : relation -> json -> string -> Prop :=
| rk_column rel step op k :
    getitem step "op" = Ok (JStr op) -> In op ["filter"; "groupby"] ->
    getitem step "column" = Ok (JStr k) ->
    resolves_key rel step k
| rk_metric rel step op k :
    getitem step "op" = Ok (JStr op) -> In op (aggregate_ops ++ ["list_unique"]) ->
    getitem step "metric" = Ok (JStr k) ->
    resolves_key rel step k
| rk_sort_by rel step o k :
    getitem step "op" = Ok (JStr "sort") ->
    getitem step "order" = Ok o ->
    (forall name s, rel <> Keyed name s) ->
    getitem step "by" = Ok (JStr k) ->
    resolves_key rel step k.

(** Notions used to reason about strings: the string without its first [n]
    characters, the occurrence of a character, a string made of characters
    of one class only. *)
Fixpoint drop (n : nat) (s : string) : string :=
  match n, s with
  | O, _ => s
  | S _, EmptyString => EmptyString
  | S n', String _ s' => drop n' s'
  end.

Fixpoint mem (c : ascii) (s : string) : bool :=
  match s with
  | EmptyString => false
  | String a s' => Ascii.eqb a c || mem c s'
  end.

Fixpoint all_by (p : ascii -> bool) (s : string) : bool :=
  match s with
  | EmptyString => true
  | String a s' => p a && all_by p s'
  end.

(** Rows in descending order of the cell in column [i]. *)
Definition rows_descending (i : nat) (rs : list (list cell)) : Prop :=
  StronglySorted
    (fun r1 r2 => cell_leb (cell_at i r2) (cell_at i r1) = true) rs.

(** Entries in descending order of value. *)
Definition descending (s : entries) : Prop :=
  StronglySorted (fun e1 e2 => (hundredths_of (snd e2) <= hundredths_of (snd e1))%Z) s.

End Spec.

Export Spec.

(* ================================================================= *)
(** ** Example data *)

Module Examples.

Definition step (fields : list (string * json)) : json := JObj fields.

(** The rows (North,100), (South,150), (North,20). *)
Definition sales_df : DataFrame :=
  mkDataFrame ["region"; "sales"]
    [[Str "North"; Num 100]; [Str "South"; Num 150]; [Str "North"; Num 20]].

Definition sales_engine : AnalyticsEngine :=
  mkAnalyticsEngine sales_df (build_schema sales_df).

(** Two rows whose values add up to 2^63. *)
Definition big_df : DataFrame :=
  mkDataFrame ["k"; "v"] [[Str "a"; Num (2 ^ 62)]; [Str "a"; Num (2 ^ 62)]].

Definition big_engine : AnalyticsEngine :=
  mkAnalyticsEngine big_df (build_schema big_df).

Definition sum_v : json := JObj [("op", JStr "sum"); ("metric", JStr "v")].

Definition groupby_region : json :=
  step [("op", JStr "groupby"); ("column", JStr "region")].
Definition sum_sales : json :=
  step [("op", JStr "sum"); ("metric", JStr "sales")].
Definition avg_sales : json :=
  step [("op", JStr "avg"); ("metric", JStr "sales")].
Definition sort_desc : json :=
  step [("op", JStr "sort"); ("order", JStr "desc")].
Definition limit_1 : json :=
  step [("op", JStr "limit"); ("value", JNum 1)].
Definition list_unique_sales : json :=
  step [("op", JStr "list_unique"); ("metric", JStr "sales")].
Definition filter_bogus : json :=
  step [("op", JStr "filter"); ("column", JStr "bogus"); ("value", JStr "x")].

(** A dataset in which a group key has the name of the metric column. *)
Definition items_df : DataFrame :=
  mkDataFrame ["item"; "sales"]
    [[Str "sales"; Num 1]; [Str "sales"; Num 2]; [Str "x"; Num 3]].

Definition items_engine : AnalyticsEngine :=
  mkAnalyticsEngine items_df (build_schema items_df).

Definition groupby_item : json :=
  step [("op", JStr "groupby"); ("column", JStr "item")].

(** The double quote, and a string between double quotes. *)
Definition dq : string := String (ascii_of_nat 34) EmptyString.
Definition quoted (s : string) : string := dq ++ s ++ dq.

Definition empty_analytics_doc : string :=
  "{" ++ quoted "type" ++ ":" ++ quoted "analytics" ++ ","
      ++ quoted "steps" ++ ":[]}".


Definition generate_fenced_analytics (_ : string) : res string :=
  Ok (fenced empty_analytics_doc).



(** A store of two texts, as built for a dataset with a single column. *)
Definition two_texts : list string := ["sales column"; "dataset summary"].
Definition two_embeddings : list vector := [[1; 0]; [0; 1]]%Q.
Definition two_store : VectorStore :=
  mkVectorStore two_texts (mkIndex 2 two_embeddings).

(** A world with one uploaded file holding the sales sheet, and the same
    world after the file has been deleted. *)
Definition one_file_world : World :=
  mkWorld ["uploads/sales.xlsx"]
          (fun _ => Ok [sales_df])
          (Ok "Columns: {schema}")
          (fun ts => Ok (map (fun t => [inject_Z (Z.of_nat (String.length t)); 1]%Q) ts)).

Definition no_file_world : World :=
  mkWorld [] (sheets one_file_world) (planner_prompt one_file_world)
          (embed one_file_world).

Definition ready_state : RAGState :=
  snd (initialize_rag_system one_file_world false initial_state).

End Examples.

Export Examples.

(* ================================================================= *)
(** ** [app/services/rag_service.py]: status and queries *)

Module RagQueries.

(** [is_followup]. *)
Definition followup_phrases : list string :=
  ["why"; "why?"; "explain"; "explain?"; "how"; "how?";
   "compare"; "compare?"; "what about this"; "what about it";
   "more details"; "details"; "tell me more"].

Definition is_followup (question : string) : bool :=
  let q := strip (lower question) in
  existsb (String.eqb q) followup_phrases.

(** The dict returned by [get_rag_status]. *)
Record RagStatus : Type := mkRagStatus {
  status_initialized : bool;
  status_files_loaded : nat;
  status_rows : nat;
  status_columns : nat;
  status_retriever_available : bool
}.

(** [get_rag_status]. *)
Definition get_rag_status (st : RAGState) : RagStatus :=
  mkRagStatus
    (initialized st)
    (file_count st)
    (match st_df st with Some d => List.length (rows d) | None => 0 end)
    (match st_df st with Some d => List.length (columns d) | None => 0 end)
    (match st_retriever st with Some _ => true | None => false end).

(** The fixed replies of [get_rag_response]. *)
Definition no_data_message : string :=
  "Sorry, I don't have any data files loaded yet. Please upload Excel/CSV files first.".
Definition retrieval_unavailable_message : string :=
  "I can help with data analysis, but the knowledge retrieval system is currently unavailable. Please ask specific analytical questions instead.".
Definition no_match_message : string :=
  "I couldn't find any data matching your question. Could you try rephrasing?".
Definition cannot_process_message : string :=
  "I'm not sure how to process that question. Could you try asking differently?".
Definition error_message : string :=
  "Sorry, I encountered an error processing your question. Please try again or rephrase your question.".

(** The three prompts, the f-strings of the source line by line. *)
Definition followup_prompt (user_message : string) : string :=
   nl
   ++   "            You are a business analyst helping explain data analytics." ++ nl
   ++   "            " ++ nl
   ++   "            User asked a follow-up question: " ++ user_message ++ nl
   ++   "            " ++ nl
   ++   "            Based on the conversation history, provide a clear explanation." ++ nl
   ++   "            ".

Definition explain_prompt (context user_message : string) : string :=
   nl
   ++   "You are a business analyst for ARG Supply Tech, specializing in supply chain analytics." ++ nl
   ++   nl
   ++   "Context from the dataset:" ++ nl
   ++   context ++ nl
   ++   nl
   ++   "User question:" ++ nl
   ++   user_message ++ nl
   ++   nl
   ++   "Provide a clear, helpful explanation based only on the context provided." ++ nl.

Definition analytics_prompt (user_message result : string) : string :=
   nl
   ++   "You are a financial analyst for ARG Supply Tech." ++ nl
   ++   nl
   ++   "User question:" ++ nl
   ++   user_message ++ nl
   ++   nl
   ++   "Computed analytical result:" ++ nl
   ++   result ++ nl
   ++   nl
   ++   "Explain this result in clear, professional business language." ++ nl
   ++   "- Use the actual numbers from the result" ++ nl
   ++   "- Keep it concise (2-3 sentences)" ++ nl
   ++   "- Don't change or round the numbers" ++ nl
   ++   "- Focus on insights and meaning" ++ nl.

(** The outer [except Exception] of [get_rag_response]. *)
Definition catch (m : res string) : res string :=
  match m with
  | Ok s => Ok s
  | Raise _ => Ok error_message
  | Unmodelled => Unmodelled
  end.

Section WithCollaborators.

(** [llm_client.generate] and [json.loads], as for the planner, and the
    renderings [str(result)] and [str(context)] that the f-strings insert. *)
Variable generate : string -> res string.
Variable json_loads : string -> option json.
Variable arrow : string.
Variable show_result : result -> string.
Variable show_context : list string -> string.

(** The body of the [try] of [get_rag_response] after the initialization. *)
Definition answer (w : World) (st : RAGState) (user_message : string)
    : res string :=
  if is_followup user_message then generate (followup_prompt user_message)
  else
    p <- match st_planner st with
         | Some planner => plan generate json_loads arrow planner user_message
         | None => Raise AttributeError
         end ;;
    ty <- getitem p "type" ;;
    if eq_str ty "explain" then
      match st_retriever st with
      | None => Ok retrieval_unavailable_message
      | Some retriever =>
          context <- get_context (embed w) retriever user_message ;;
          generate (explain_prompt (show_context context) user_message)
      end
    else if eq_str ty "analytics" then
      result <- match st_engine st with
                | Some engine => fst (run engine p)
                | None => Raise AttributeError
                end ;;
      match result with
      | RNone => Ok no_match_message
      | _ => generate (analytics_prompt user_message (show_result result))
      end
    else Ok cannot_process_message.

(** [get_rag_response]: the reply and the global state after the call. *)
Definition get_rag_response (w : World) (st : RAGState) (user_message : string)
    : res string * RAGState :=
  if is_initialized st then (catch (answer w st user_message), st)
  else
    let (success, st') := initialize_rag_system w false st in
    if success then (catch (answer w st' user_message), st')
    else (Ok no_data_message, st').

End WithCollaborators.

End RagQueries.

Export RagQueries.

(* ================================================================= *)
(** ** [app/services/groq_service.py] *)

Module GroqService.

(** A message of the chat completion request, and an item of the chat
    history ([{"type": ..., "content": ...}], as [send_message] builds it). *)
Record Message : Type := mkMessage {
  role : string;
  content : string
}.

Record HistoryItem : Type := mkHistoryItem {
  item_type : string;
  item_content : string
}.

Definition system_prompt : string :=
  "You are a helpful AI assistant for ARG Supply Tech, specializing in supply chain analytics. You help users analyze their Excel/CSV data and answer questions about inventory, costs, procurement, and supply chain operations.".

(** [xs[-n:]] for a positive [n]. *)
Definition last_n {A} (n : nat) (xs : list A) : list A :=
  skipn (List.length xs - n) xs.

Definition message_of (msg : HistoryItem) : Message :=
  mkMessage (if String.eqb (item_type msg) "user" then "user" else "assistant")
            (item_content msg).

(** The messages array of [get_groq_response]; the history is [None] or a
    list. *)
Definition build_messages (user_message : string)
    (chat_history : option (list HistoryItem)) : list Message :=
  [mkMessage "system" system_prompt]
  ++ match chat_history with
     | Some (item :: items) => map message_of (last_n 10 (item :: items))
     | _ => []
     end
  ++ [mkMessage "user" user_message].

(** [get_groq_response]; [create] stands for the completion call and gives
    the content of the first choice, or the text of the exception raised. *)
Definition get_groq_response (create : list Message -> string + string)
    (user_message : string) (chat_history : option (list HistoryItem))
    : string :=
  match create (build_messages user_message chat_history) with
  | inl bot_response => bot_response
  | inr e => "Sorry, I encountered an error: " ++ e
  end.

End GroqService.

Export GroqService.

(* ================================================================= *)
(** ** Further vocabulary for the properties of the code *)

Module Notions.

(** The characters of a semantic key: a-z, 0-9 and the underscore. *)
Definition is_key_char (c : ascii) : bool :=
  is_lower_alnum c || Ascii.eqb c "_".

(** No two neighbours of the string are both the character [c]. *)
Fixpoint no_adjacent (c : ascii) (s : string) : bool :=
  match s with
  | EmptyString => true
  | String a t =>
      match t with
      | EmptyString => true
      | String b _ => negb (Ascii.eqb a c && Ascii.eqb b c) && no_adjacent c t
      end
  end.

(** The string starts with the character [c]. *)
Definition starts_with (c : ascii) (s : string) : bool :=
  match s with
  | EmptyString => false
  | String a _ => Ascii.eqb a c
  end.

(** The operation names [run] knows. *)
Definition operations : list string :=
  ["filter"; "groupby"] ++ aggregate_ops ++ ["list_unique"; "sort"; "limit"].


(** Entries in ascending order of value, rows in ascending order of the cell
    in column [i]. *)
Definition ascending (s : entries) : Prop :=
  StronglySorted
    (fun e1 e2 => (hundredths_of (snd e1) <= hundredths_of (snd e2))%Z) s.

Definition rows_ascending (i : nat) (rs : list (list cell)) : Prop :=
  StronglySorted
    (fun r1 r2 => cell_leb (cell_at i r1) (cell_at i r2) = true) rs.





(** The string [p] occurs in the string [s]. *)
Fixpoint contains (p s : string) : bool :=
  prefix p s
  || match s with
     | EmptyString => false
     | String _ s' => contains p s'
     end.

End Notions.

Export Notions.

(* ================================================================= *)
(** ** Reductions of a Series meet their descriptions *)

Section Reductions.










Lemma cell_eqb_eq (a b : cell) : cell_eqb a b = true <-> a = b.
Proof.
  destruct a, b; simpl; split; intros H; try discriminate; try reflexivity.
  - apply Z.eqb_eq in H; subst; reflexivity.
  - injection H as ->; apply Z.eqb_refl.
  - apply String.eqb_eq in H; subst; reflexivity.
  - injection H as ->; apply String.eqb_refl.
Qed.

Lemma cell_eqb_refl (a : cell) : cell_eqb a a = true.
Proof. apply cell_eqb_eq; reflexivity. Qed.

Lemma cell_eqb_sym (a b : cell) : cell_eqb a b = cell_eqb b a.
Proof.
  destruct (cell_eqb a b) eqn:E.
  - apply cell_eqb_eq in E; subst; symmetry; apply cell_eqb_refl.
  - destruct (cell_eqb b a) eqn:E'; [|reflexivity].
    apply cell_eqb_eq in E'; subst. rewrite cell_eqb_refl in E; discriminate.
Qed.

Lemma In_unique (s : list cell) (c : cell) : In c (unique s) <-> In c s.
Proof.
  induction s as [|d s IH]; simpl; [tauto|].
  rewrite filter_In, IH. split.
  - intros [->|[H _]]; [left; reflexivity | right; exact H].
  - intros [->|H]; [left; reflexivity|].
    destruct (cell_eqb c d) eqn:E.
    + apply cell_eqb_eq in E; left; symmetry; exact E.
    + right; split; [exact H | reflexivity].
Qed.

Lemma NoDup_filter {A} (p : A -> bool) (l : list A) :
  NoDup l -> NoDup (filter p l).
Proof.
  induction 1 as [|x l Hx Hl IH]; simpl; [constructor|].
  destruct (p x); [constructor; [|exact IH] | exact IH].
  rewrite filter_In; tauto.
Qed.

Lemma NoDup_unique (s : list cell) : NoDup (unique s).
Proof.
  induction s as [|d s IH]; simpl; constructor.
  - rewrite filter_In. intros [_ H]. rewrite cell_eqb_refl in H; discriminate.
  - apply NoDup_filter; exact IH.
Qed.

Lemma In_dropna (s : list cell) (c : cell) :
  In c (dropna s) <-> In c s /\ c <> Null.
Proof.
  unfold dropna; rewrite filter_In.
  destruct c; simpl; split; intros [H1 H2]; split;
    try exact H1; try reflexivity; try discriminate; congruence.
Qed.




End Reductions.

(* ================================================================= *)
(** ** The schema builder *)

Section SchemaProperties.

Example normalize_unit_cost : normalize "Unit Cost ($)" = "unit_cost".
Proof. reflexivity. Qed.

Example normalize_vendor_id : normalize "  Vendor-ID " = "vendor_id".
Proof. reflexivity. Qed.

Lemma assoc_dict_set {V} (k k' : string) (v c : V) (d : list (string * V)) :
  assoc k (dict_set k' v d) = Some c -> c = v \/ assoc k d = Some c.
Proof.
  induction d as [|[k0 v0] d IH]; simpl.
  - destruct (String.eqb k k'); intros H; [left; congruence | discriminate].
  - destruct (String.eqb k' k0) eqn:E; simpl.
    + apply String.eqb_eq in E; subst k0.
      destruct (String.eqb k k'); intros H; [left; congruence | right; exact H].
    + destruct (String.eqb k k0); intros H; [right; exact H | apply IH; exact H].
Qed.

Lemma fold_dict_set_values (cols : list string) (acc : Schema) (k c : string) :
  assoc k (fold_left (fun schema col => dict_set (normalize col) col schema)
                     cols acc) = Some c ->
  In c cols \/ assoc k acc = Some c.
Proof.
  revert acc; induction cols as [|col cols IH]; intros acc H; simpl in *.
  - right; exact H.
  - destruct (IH _ H) as [Hin|Hacc]; [left; right; exact Hin|].
    destruct (assoc_dict_set _ _ _ _ Hacc) as [->|Hd];
      [left; left; reflexivity | right; exact Hd].
Qed.

Lemma index_of_In (c : string) (cols : list string) :
  In c cols -> exists i, index_of c cols = Some i.
Proof.
  induction cols as [|c' cols IH]; simpl; [tauto|].
  intros [->|H].
  - rewrite String.eqb_refl. eexists; reflexivity.
  - destruct (String.eqb c c'); [eexists; reflexivity|].
    destruct (IH H) as [i ->]. eexists; reflexivity.
Qed.

(** Every semantic key of the schema built from a dataset resolves to a
    column the dataset has. *)
Lemma build_schema_resolves (d : DataFrame) (k col : string) :
  assoc k (build_schema d) = Some col ->
  exists series, df_getitem d col = Ok series.
Proof.
  intros H. unfold build_schema in H.
  destruct (fold_dict_set_values _ _ _ H) as [Hin|Hnil]; [|discriminate].
  destruct (index_of_In _ _ Hin) as [i Hi].
  unfold df_getitem. rewrite Hi. eexists; reflexivity.
Qed.

End SchemaProperties.

(* ================================================================= *)
(** ** The analytics engine *)

Section Engine.




Lemma wrap64_range (z : Z) : in_int64 (wrap64 z) = true.
Proof.
  unfold in_int64, int64_min, int64_max, wrap64.
  pose proof (Z.mod_pos_bound (z + 2 ^ 63) (2 ^ 64) ltac:(lia)) as H.
  apply andb_true_iff. split; apply Z.leb_le; lia.
Qed.




(** The test [op in ["sum", ...]] and the tests before it, for the name of an
    aggregate. *)
Lemma aggregate_op_dispatch (op : string) :
  In op aggregate_ops ->
  eq_str (JStr op) "filter" = false /\ eq_str (JStr op) "groupby" = false
  /\ in_strs (JStr op) aggregate_ops = true.
Proof.
  unfold aggregate_ops; simpl.
  intros [<-|[<-|[<-|[<-|[<-|[]]]]]]; repeat split; reflexivity.
Qed.





(** A step that returns ends the loop whatever follows it. *)
Lemma run_steps_return (self : AnalyticsEngine) (rel : relation) (stp : json)
    (v : result) (rest : list json) :
  exec_step self rel stp = Ok (Return v) ->
  run_steps self rel (stp :: rest) = Ok v.
Proof. intros H. unfold run_steps. simpl. rewrite H. reflexivity. Qed.

(** A step that raises ends the loop whatever follows it. *)
Lemma run_steps_raise (self : AnalyticsEngine) (rel : relation) (stp : json)
    (e : exception) (rest : list json) :
  exec_step self rel stp = Raise e ->
  run_steps self rel (stp :: rest) = Raise e.
Proof. intros H. unfold run_steps. simpl. rewrite H. reflexivity. Qed.


Lemma run_analytics_plan (self : AnalyticsEngine) (steps : list json) :
  run self (analytics_plan steps) = (run_steps self (Rows (df self)) steps, self).
Proof. reflexivity. Qed.

Lemma filter_filter {A} (p q : A -> bool) (l : list A) :
  filter p (filter q l) = filter (fun x => q x && p x) l.
Proof.
  induction l as [|x l IH]; simpl; [reflexivity|].
  destruct (q x); simpl; [destruct (p x)|]; rewrite IH; reflexivity.
Qed.

(** Removing the later copies of every value is reading the column from the
    start and keeping a value the first time it is seen. *)
Lemma unique_dropna_distinct_from (seen s : list cell) :
  filter (fun c => negb (existsb (cell_eqb c) seen)) (unique (dropna s))
  = distinct_from seen s.
Proof.
  revert seen; induction s as [|c s IH]; intros seen; [reflexivity|].
  destruct c as [|z|t].
  - simpl. apply IH.
  - change (dropna (Num z :: s)) with (Num z :: dropna s).
    cbn [unique filter distinct_from is_null orb].
    rewrite filter_filter.
    destruct (existsb (cell_eqb (Num z)) seen) eqn:E; cbn [negb].
    + rewrite <- IH. apply filter_ext_in. intros d _.
      destruct (cell_eqb d (Num z)) eqn:Ed; [|reflexivity].
      apply cell_eqb_eq in Ed; subst d. rewrite E; reflexivity.
    + f_equal. rewrite <- IH. apply filter_ext. intros d.
      cbn [existsb]. rewrite negb_orb, (cell_eqb_sym d (Num z)). reflexivity.
  - change (dropna (Str t :: s)) with (Str t :: dropna s).
    cbn [unique filter distinct_from is_null orb].
    rewrite filter_filter.
    destruct (existsb (cell_eqb (Str t)) seen) eqn:E; cbn [negb].
    + rewrite <- IH. apply filter_ext_in. intros d _.
      destruct (cell_eqb d (Str t)) eqn:Ed; [|reflexivity].
      apply cell_eqb_eq in Ed; subst d. rewrite E; reflexivity.
    + f_equal. rewrite <- IH. apply filter_ext. intros d.
      cbn [existsb]. rewrite negb_orb, (cell_eqb_sym d (Str t)). reflexivity.
Qed.

Lemma unique_dropna_distinct (s : list cell) :
  unique (dropna s) = distinct_in_order s.
Proof.
  unfold distinct_in_order. rewrite <- unique_dropna_distinct_from.
  simpl. symmetry. induction (unique (dropna s)) as [|c l IH]; simpl; congruence.
Qed.



(** C1 fails as stated: two values of 2^62 add up to 2^63, which the 64-bit
    sum of the code wraps around to -2^63; the scalar returned is not the sum
    of the column. *)
Lemma aggregate_on_rows_counterexample :
  run big_engine (analytics_plan [sum_v])
  = (Ok (RScalar (Int (- 2 ^ 63))), big_engine)
  /\ total [2 ^ 62; 2 ^ 62]%Z = (2 ^ 63)%Z
  /\ ~ is_aggregate "sum" [2 ^ 62; 2 ^ 62]%Z (Int (- 2 ^ 63)).
Proof.
  split; [vm_compute; reflexivity|]. split; [reflexivity|].
  intros H. inversion H.
Qed.

(** C2.  On the rows (North,100), (South,150), (North,20) the plan
    groupby region, sum of sales, sort descending, limit 1 returns the
    mapping with the single entry South: 150. *)
Theorem top_region_by_sales :
  run sales_engine
      (analytics_plan [groupby_region; sum_sales; sort_desc; limit_1])
  = (Ok (RMapping [(Str "South", Int 150)]), sales_engine).
Proof. vm_compute. reflexivity. Qed.

(** The loop over a concatenation of steps. *)
Lemma loop_app (self : AnalyticsEngine) (rel : relation) (pre rest : list json) :
  loop self rel (pre ++ rest)
  = match loop self rel pre with
    | Ok (Next rel') => loop self rel' rest
    | other => other
    end.
Proof.
  revert rel; induction pre as [|stp pre IH]; intros rel; simpl; [reflexivity|].
  destruct (exec_step self rel stp) as [[rel'|v]|e|]; simpl;
    try reflexivity. apply IH.
Qed.

Lemma run_steps_app (self : AnalyticsEngine) (rel rel' : relation)
    (pre rest : list json) :
  loop self rel pre = Ok (Next rel') ->
  run_steps self rel (pre ++ rest) = run_steps self rel' rest.
Proof. intros H. unfold run_steps. rewrite loop_app, H. reflexivity. Qed.

Lemma series_getitem_missing (s : entries) (label : string) :
  (forall x, ~ In (Str label, x) s) ->
  series_getitem s label = Raise (KeyError label).
Proof.
  induction s as [|[k x] s IH]; intros H; simpl; [reflexivity|].
  assert (Hs : forall y, ~ In (Str label, y) s)
    by (intros y Hy; apply (H y); right; exact Hy).
  destruct k as [|z|t]; try (apply IH; exact Hs).
  destruct (String.eqb t label) eqn:E; [|apply IH; exact Hs].
  apply String.eqb_eq in E; subst t. exfalso; apply (H x); left; reflexivity.
Qed.

Lemma reduce_item_defined (op : string) :
  In op aggregate_ops -> exists f, reduce_item (JStr op) = Some f.
Proof.
  unfold aggregate_ops; simpl.
  intros [<-|[<-|[<-|[<-|[<-|[]]]]]]; eexists; reflexivity.
Qed.

Lemma exec_step_aggregate_keyed (self : AnalyticsEngine) (name : string)
    (s : entries) (stp : json) (op m col : string) :
  getitem stp "op" = Ok (JStr op) -> In op aggregate_ops ->
  getitem stp "metric" = Ok (JStr m) -> assoc m (schema self) = Some col ->
  (forall x, ~ In (Str col, x) s) ->
  exec_step self (Keyed name s) stp = Raise (KeyError col).
Proof.
  intros Hop Hin Hm Hcol Hs.
  destruct (aggregate_op_dispatch Hin) as (E1 & E2 & E3).
  destruct (reduce_item_defined Hin) as [f Hf].
  unfold exec_step. rewrite Hop. cbn [bind]. rewrite E1, E2, E3, Hm.
  cbn [bind _col]. rewrite Hcol. cbn [bind]. rewrite Hf.
  rewrite series_getitem_missing by exact Hs. reflexivity.
Qed.

(** C3, as the code has it.  When the steps executed so far have reduced the
    relation to a Series indexed by group keys and the raw name of the metric
    column is not one of those keys, a further aggregate step makes [run]
    raise [KeyError] for that column, whatever follows the step; the engine
    is left as it was. *)
Theorem aggregate_on_keyed_raises (self : AnalyticsEngine) (pre : list json)
    (name : string) (s : entries) (stp : json) (op m col : string)
    (rest : list json) :
  loop self (Rows (df self)) pre = Ok (Next (Keyed name s)) ->
  getitem stp "op" = Ok (JStr op) -> In op aggregate_ops ->
  getitem stp "metric" = Ok (JStr m) -> assoc m (schema self) = Some col ->
  (forall x, ~ In (Str col, x) s) ->
  run self (analytics_plan (pre ++ stp :: rest)) = (Raise (KeyError col), self).
Proof.
  intros Hpre Hop Hin Hm Hcol Hs.
  rewrite run_analytics_plan. f_equal.
  rewrite run_steps_app with (rel' := Keyed name s) by exact Hpre.
  apply run_steps_raise.
  eapply exec_step_aggregate_keyed; eassumption.
Qed.

Lemma aggregate_on_keyed_raises_witness :
  run sales_engine
      (analytics_plan ([groupby_region; sum_sales] ++ avg_sales :: [limit_1]))
  = (Raise (KeyError "sales"), sales_engine).
Proof.
  apply (@aggregate_on_keyed_raises sales_engine [groupby_region; sum_sales]
           "region" [(Str "North", Int 120); (Str "South", Int 150)]
           avg_sales "avg" "sales" "sales" [limit_1]);
    try reflexivity.
  - simpl; tauto.
  - intros x [H|[H|[]]]; discriminate H.
Defined.

(** C3 fails as stated: on the Series that groupby item and sum of sales
    leave behind, whose keys include the string "sales", a further sum of
    sales raises nothing and returns the entry of that key. *)
Lemma aggregate_on_keyed_counterexample :
  loop items_engine (Rows (df items_engine)) [groupby_item; sum_sales]
  = Ok (Next (Keyed "item" [(Str "sales", Int 3); (Str "x", Int 3)]))
  /\ run items_engine (analytics_plan [groupby_item; sum_sales; sum_sales])
     = (Ok (RScalar (Int 3)), items_engine)
  /\ ~ (exists e, fst (run items_engine
                         (analytics_plan [groupby_item; sum_sales; sum_sales]))
                  = Raise e).
Proof.
  repeat split; try (vm_compute; reflexivity).
  intros [e He]. vm_compute in He. discriminate He.
Qed.

Lemma exec_step_list_unique_rows (self : AnalyticsEngine) (d : DataFrame)
    (stp : json) (m col : string) (series : list cell) :
  getitem stp "op" = Ok (JStr "list_unique") ->
  getitem stp "metric" = Ok (JStr m) -> assoc m (schema self) = Some col ->
  df_getitem d col = Ok series ->
  exec_step self (Rows d) stp = Ok (Return (RList (distinct_in_order series))).
Proof.
  intros Hop Hm Hcol Hser. unfold exec_step. rewrite Hop. simpl.
  rewrite Hm. simpl. rewrite Hcol. simpl. rewrite Hser. simpl.
  rewrite unique_dropna_distinct. reflexivity.
Qed.

(** A [list_unique] step never hands a relation to the next step: it returns
    or it raises. *)
Lemma exec_step_list_unique_ends (self : AnalyticsEngine) (rel rel' : relation)
    (stp : json) :
  getitem stp "op" = Ok (JStr "list_unique") ->
  exec_step self rel stp <> Ok (Next rel').
Proof.
  intros Hop. unfold exec_step. rewrite Hop. simpl.
  destruct (getitem stp "metric") as [m|e|]; simpl; try discriminate.
  destruct (_col self m) as [col|e|]; simpl; try discriminate.
  destruct rel as [d|d b|name s]; simpl.
  - destruct (df_getitem d col); simpl; discriminate.
  - destruct (groupby_getitem d col); simpl; discriminate.
  - destruct (series_getitem s col); simpl; discriminate.
Qed.

Lemma run_steps_list_unique (self : AnalyticsEngine) (rel : relation)
    (stp : json) (rest : list json) :
  getitem stp "op" = Ok (JStr "list_unique") ->
  run_steps self rel (stp :: rest) = run_steps self rel [stp].
Proof.
  intros Hop. unfold run_steps. simpl.
  pose proof (fun rel' => @exec_step_list_unique_ends self rel rel' stp Hop) as H.
  destruct (exec_step self rel stp) as [[rel'|v]|e|]; simpl; try reflexivity.
  exfalso; apply (H rel'); reflexivity.
Qed.

Lemma getitem_modelled (obj : json) (key : string) :
  getitem obj key <> Unmodelled.
Proof.
  unfold getitem. destruct obj as [| | | |items|fields]; try discriminate.
  destruct (assoc key fields); discriminate.
Qed.

Lemma _col_modelled (self : AnalyticsEngine) (semantic : json) :
  _col self semantic <> Unmodelled.
Proof.
  unfold _col. destruct semantic as [|b|z|k|items|fields]; try discriminate.
  destruct (assoc k (schema self)); discriminate.
Qed.

Lemma series_getitem_modelled (s : entries) (label : string) :
  series_getitem s label <> Unmodelled.
Proof.
  induction s as [|[k x] s IH]; simpl; [discriminate|].
  destruct k as [|z|t]; try exact IH.
  destruct (String.eqb t label); [discriminate | exact IH].
Qed.

(** On a group-by object and on a reduced Series a [list_unique] step
    raises: the metric is missing or unknown, the column is not there, or
    the object has no method [dropna] to call. *)
Lemma exec_step_list_unique_raises (self : AnalyticsEngine) (rel : relation)
    (stp : json) :
  getitem stp "op" = Ok (JStr "list_unique") ->
  (forall d, rel <> Rows d) ->
  exists e, exec_step self rel stp = Raise e.
Proof.
  intros Hop Hrel. unfold exec_step. rewrite Hop. simpl.
  pose proof (getitem_modelled stp "metric") as Hg.
  destruct (getitem stp "metric") as [m|e|]; simpl;
    [|eexists; reflexivity|contradiction].
  pose proof (_col_modelled self m) as Hc.
  destruct (_col self m) as [col|e|]; simpl;
    [|eexists; reflexivity|contradiction].
  destruct rel as [d|d b|name s]; simpl.
  - exfalso. apply (Hrel d). reflexivity.
  - unfold groupby_getitem. destruct (index_of col (columns d)); simpl;
      eexists; reflexivity.
  - pose proof (series_getitem_modelled s col) as Hs.
    destruct (series_getitem s col) as [x|e|]; simpl;
      [eexists; reflexivity | eexists; reflexivity | contradiction].
Qed.

(** C4, as the code has it.  Wherever a [list_unique] step stands in a plan,
    the steps after it have no effect on what [run] returns or raises.  When
    the steps before it leave a DataFrame, [run] returns the distinct
    non-null values of the metric column in the order in which they first
    occur.  When they leave a group-by object or a reduced Series, [run]
    returns no sequence: it raises, whatever the step and the steps after it
    hold. *)
Theorem list_unique_short_circuits (self : AnalyticsEngine) (pre : list json)
    (rel : relation) (stp : json) (rest : list json) :
  loop self (Rows (df self)) pre = Ok (Next rel) ->
  getitem stp "op" = Ok (JStr "list_unique") ->
  run self (analytics_plan (pre ++ stp :: rest))
  = run self (analytics_plan (pre ++ [stp]))
  /\ (forall d m col series,
        rel = Rows d ->
        getitem stp "metric" = Ok (JStr m) -> assoc m (schema self) = Some col ->
        df_getitem d col = Ok series ->
        run self (analytics_plan (pre ++ stp :: rest))
        = (Ok (RList (distinct_in_order series)), self))
  /\ ((forall d, rel <> Rows d) ->
      exists e,
        run self (analytics_plan (pre ++ stp :: rest)) = (Raise e, self)).
Proof.
  intros Hpre Hop. rewrite !run_analytics_plan.
  rewrite !run_steps_app with (rel' := rel) by exact Hpre. split; [|split].
  - f_equal. apply run_steps_list_unique; exact Hop.
  - intros d m col series -> Hm Hcol Hser. f_equal.
    apply run_steps_return.
    eapply exec_step_list_unique_rows; eassumption.
  - intros Hrel.
    destruct (exec_step_list_unique_raises self stp Hop Hrel) as [e He].
    exists e. f_equal. apply run_steps_raise. exact He.
Qed.

Lemma list_unique_short_circuits_witness :
  run sales_engine
      (analytics_plan ([] ++ list_unique_sales :: [sort_desc; limit_1]))
  = run sales_engine (analytics_plan ([] ++ [list_unique_sales]))
  /\ run sales_engine
        (analytics_plan ([] ++ list_unique_sales :: [sort_desc; limit_1]))
     = (Ok (RList [Num 100; Num 150; Num 20]), sales_engine).
Proof.
  destruct (@list_unique_short_circuits sales_engine [] (Rows sales_df)
              list_unique_sales [sort_desc; limit_1] eq_refl eq_refl)
    as (H1 & H2 & _).
  split; [exact H1|].
  exact (H2 sales_df "sales" "sales" [Num 100; Num 150; Num 20]
            eq_refl eq_refl eq_refl eq_refl).
Defined.

(** C4 fails as stated on the two other shapes of the relation: after
    groupby and sum the step raises [KeyError] for the column, and right
    after groupby it raises as well; in neither case is a sequence of values
    returned. *)
Lemma list_unique_counterexample :
  run sales_engine
      (analytics_plan [groupby_region; sum_sales; list_unique_sales])
  = (Raise (KeyError "sales"), sales_engine)
  /\ (exists e,
        run sales_engine (analytics_plan [groupby_region; list_unique_sales])
        = (Raise e, sales_engine)).
Proof.
  split; [vm_compute; reflexivity|].
  eexists. vm_compute. reflexivity.
Qed.

Lemma _col_unknown (self : AnalyticsEngine) (k : string) :
  assoc k (schema self) = None ->
  _col self (JStr k) = Raise (ValueError ("Unknown column: " ++ k)).
Proof. intros H. simpl. rewrite H. reflexivity. Qed.

Lemma exec_step_unknown_key (self : AnalyticsEngine) (rel : relation)
    (stp : json) (k : string) :
  resolves_key rel stp k -> assoc k (schema self) = None ->
  exec_step self rel stp = Raise (ValueError ("Unknown column: " ++ k)).
Proof.
  intros Hres Hk. pose proof (_col_unknown self k Hk) as Hc.
  destruct Hres as [rel stp op k Hop Hin Hfield
                   |rel stp op k Hop Hin Hfield
                   |rel stp o k Hop Ho Hrel Hfield];
    unfold exec_step; rewrite Hop; cbn [bind].
  - simpl in Hin. destruct Hin as [<-|[<-|[]]]; simpl;
      rewrite Hfield; cbn [bind]; rewrite Hc; reflexivity.
  - apply in_app_or in Hin. destruct Hin as [Hin|[<-|[]]].
    + destruct (aggregate_op_dispatch Hin) as (E1 & E2 & E3).
      rewrite E1, E2, E3, Hfield. cbn [bind]. rewrite Hc. reflexivity.
    + simpl. rewrite Hfield. cbn [bind]. rewrite Hc. reflexivity.
  - simpl. rewrite Ho. cbn [bind].
    destruct rel as [d|d b|name s].
    + rewrite Hfield. cbn [bind]. rewrite Hc. reflexivity.
    + rewrite Hfield. cbn [bind]. rewrite Hc. reflexivity.
    + exfalso. apply (Hrel name s). reflexivity.
Qed.

(** A sort of a reduced Series does not look at [by]. *)
Lemma exec_step_sort_keyed (self : AnalyticsEngine) (name : string)
    (s : entries) (stp o : json) :
  getitem stp "op" = Ok (JStr "sort") -> getitem stp "order" = Ok o ->
  exec_step self (Keyed name s) stp
  = Ok (Next (Keyed name (series_sort_values (eq_str o "asc") s))).
Proof.
  intros Hop Ho. unfold exec_step. rewrite Hop. cbn [bind].
  change (eq_str (JStr "sort") "filter") with false.
  change (eq_str (JStr "sort") "groupby") with false.
  change (in_strs (JStr "sort") aggregate_ops) with false.
  change (eq_str (JStr "sort") "list_unique") with false.
  change (eq_str (JStr "sort") "sort") with true. cbv iota.
  rewrite Ho. reflexivity.
Qed.

(** C5, as the code has it.  When the steps executed so far have neither
    returned nor raised and the next step resolves a semantic key that the
    schema does not have, [run] raises the error "Unknown column: key",
    whatever follows the step, and the engine with its dataset is left as it
    was.  Keys are resolved when their step is executed and not before: the
    same step placed after a step that returns is never reached, and [run]
    returns what that step returns; and a sort of a reduced Series does not
    resolve its [by], so it succeeds with the unknown key. *)
Theorem unknown_key_raises (self : AnalyticsEngine) (pre : list json)
    (rel : relation) (stp : json) (k : string) (rest : list json) :
  loop self (Rows (df self)) pre = Ok (Next rel) ->
  resolves_key rel stp k -> assoc k (schema self) = None ->
  run self (analytics_plan (pre ++ stp :: rest))
  = (Raise (ValueError ("Unknown column: " ++ k)), self)
  /\ (forall returning v,
        exec_step self rel returning = Ok (Return v) ->
        run self (analytics_plan (pre ++ returning :: stp :: rest))
        = (Ok v, self))
  /\ (forall name s sorting o,
        rel = Keyed name s ->
        getitem sorting "op" = Ok (JStr "sort") ->
        getitem sorting "order" = Ok o ->
        getitem sorting "by" = Ok (JStr k) ->
        run self (analytics_plan (pre ++ [sorting]))
        = (Ok (RMapping (series_sort_values (eq_str o "asc") s)), self)).
Proof.
  intros Hpre Hres Hk. rewrite !run_analytics_plan. split; [|split].
  - f_equal.
    rewrite run_steps_app with (rel' := rel) by exact Hpre.
    apply run_steps_raise. apply exec_step_unknown_key; assumption.
  - intros returning v Hret. rewrite run_analytics_plan. f_equal.
    rewrite run_steps_app with (rel' := rel) by exact Hpre.
    apply run_steps_return. exact Hret.
  - intros name s sorting o -> Hop Ho _. rewrite run_analytics_plan. f_equal.
    rewrite run_steps_app with (rel' := Keyed name s) by exact Hpre.
    unfold run_steps. cbn [loop].
    rewrite (exec_step_sort_keyed self name s sorting Hop Ho). reflexivity.
Qed.

Lemma unknown_key_raises_witness :
  run sales_engine
      (analytics_plan ([groupby_region] ++ filter_bogus :: [sum_sales]))
  = (Raise (ValueError "Unknown column: bogus"), sales_engine).
Proof.
  apply (@unknown_key_raises sales_engine [groupby_region]
           (Grouped sales_df "region") filter_bogus "bogus" [sum_sales]).
  - reflexivity.
  - apply rk_column with (op := "filter"); [reflexivity | simpl; tauto | reflexivity].
  - reflexivity.
Defined.

(** C5 fails as stated: a step that names a key the schema does not have,
    placed after an aggregate of the rows, is never executed; [run] returns
    the aggregate and raises nothing. *)
Lemma unknown_key_counterexample :
  assoc "bogus" (schema sales_engine) = None
  /\ In filter_bogus [sum_sales; filter_bogus]
  /\ run sales_engine (analytics_plan [sum_sales; filter_bogus])
     = (Ok (RScalar (Int 270)), sales_engine).
Proof. repeat split; try (vm_compute; reflexivity). right; left; reflexivity. Qed.

End Engine.

(* ================================================================= *)
(** ** Sorting *)

Section Sorting.

Context {A : Type} (leb : A -> A -> bool).
Hypothesis leb_total : forall x y, leb x y = true \/ leb y x = true.
Hypothesis leb_trans :
  forall x y z, leb x y = true -> leb y z = true -> leb x z = true.

Lemma insert_perm (x : A) (l : list A) : Permutation (x :: l) (insert leb x l).
Proof.
  induction l as [|y l IH]; simpl; [reflexivity|].
  destruct (leb x y); [reflexivity|].
  rewrite perm_swap. constructor. exact IH.
Qed.

Lemma isort_perm (l : list A) : Permutation l (isort leb l).
Proof.
  induction l as [|x l IH]; simpl; [reflexivity|].
  rewrite <- insert_perm. constructor. exact IH.
Qed.

Lemma insert_sorted (x : A) (l : list A) :
  StronglySorted (fun a b => leb a b = true) l ->
  StronglySorted (fun a b => leb a b = true) (insert leb x l).
Proof.
  induction 1 as [|y l Hl IH Hy]; simpl.
  - constructor; constructor.
  - destruct (leb x y) eqn:E.
    + constructor; [constructor; assumption|].
      constructor; [exact E|].
      eapply Forall_impl; [|exact Hy]. intros z Hz.
      eapply leb_trans; eassumption.
    + constructor; [exact IH|].
      assert (Hyx : leb y x = true)
        by (destruct (leb_total x y); [congruence|assumption]).
      eapply Permutation_Forall; [apply insert_perm|].
      constructor; assumption.
Qed.

Lemma isort_sorted (l : list A) :
  StronglySorted (fun a b => leb a b = true) (isort leb l).
Proof.
  induction l as [|x l IH]; simpl; [constructor|].
  apply insert_sorted; exact IH.
Qed.

End Sorting.

Section SortedLists.

Context {A : Type}.

Lemma StronglySorted_snoc (R : A -> A -> Prop) (l : list A) (x : A) :
  StronglySorted R l -> Forall (fun y => R y x) l ->
  StronglySorted R (l ++ [x]).
Proof.
  induction 1 as [|y l Hl IH Hy]; intros Hx; simpl.
  - constructor; constructor.
  - inversion Hx as [|? ? Hyx Hlx]; subst.
    constructor; [apply IH; exact Hlx|].
    apply Forall_app; split; [exact Hy | constructor; [exact Hyx | constructor]].
Qed.

Lemma StronglySorted_rev (R : A -> A -> Prop) (l : list A) :
  StronglySorted R l -> StronglySorted (fun x y => R y x) (rev l).
Proof.
  induction 1 as [|x l Hl IH Hx]; simpl; [constructor|].
  apply StronglySorted_snoc; [exact IH|].
  apply Forall_rev. exact Hx.
Qed.

Lemma filter_partition_perm (p : A -> bool) (l : list A) :
  Permutation l (filter (fun x => negb (p x)) l ++ filter p l).
Proof.
  induction l as [|x l IH]; simpl; [reflexivity|].
  destruct (p x); simpl.
  - rewrite <- Permutation_middle. constructor. exact IH.
  - constructor. exact IH.
Qed.

(** A descending [sort_values] rearranges the items, lists the present ones
    from the greatest to the least and puts the missing ones last. *)
Lemma sort_values_descending (isna : A -> bool) (leb : A -> A -> bool)
    (l : list A) :
  (forall x y, leb x y = true \/ leb y x = true) ->
  (forall x y z, leb x y = true -> leb y z = true -> leb x z = true) ->
  exists present missing,
    sort_values isna leb false l = present ++ missing
    /\ Permutation l (present ++ missing)
    /\ StronglySorted (fun x y => leb y x = true) present
    /\ (forall x, In x present -> isna x = false)
    /\ (forall x, In x missing -> isna x = true).
Proof.
  intros Htot Htrans. unfold sort_values.
  set (present := filter (fun x => negb (isna x)) l).
  set (missing := filter isna l).
  exists (rev (isort leb (rev present))), (rev missing).
  split; [reflexivity|]. split; [|split; [|split]].
  - rewrite (filter_partition_perm isna l). fold present. fold missing.
    apply Permutation_app.
    + rewrite <- Permutation_rev, <- isort_perm. apply Permutation_rev.
    + apply Permutation_rev.
  - apply StronglySorted_rev. apply isort_sorted; assumption.
  - intros x Hx. apply in_rev in Hx.
    apply (Permutation_in x (Permutation_sym (isort_perm leb (rev present)))) in Hx.
    apply in_rev in Hx. unfold present in Hx. apply filter_In in Hx.
    destruct Hx as [_ Hx]. destruct (isna x); [discriminate|reflexivity].
  - intros x Hx. apply in_rev in Hx. unfold missing in Hx.
    apply filter_In in Hx. tauto.
Qed.

End SortedLists.

Section SortStep.

Lemma eq_str_true (v : json) (s : string) : eq_str v s = true <-> v = JStr s.
Proof.
  destruct v; simpl; split; intros H; try discriminate.
  - apply String.eqb_eq in H; subst; reflexivity.
  - injection H as ->. apply String.eqb_refl.
Qed.

Lemma eq_str_false (v : json) (s : string) : v <> JStr s -> eq_str v s = false.
Proof.
  intros H. destruct (eq_str v s) eqn:E; [|reflexivity].
  apply eq_str_true in E. contradiction.
Qed.

Lemma series_sort_values_descending (s : entries) :
  exists present missing,
    series_sort_values false s = present ++ missing
    /\ Permutation s (present ++ missing)
    /\ descending present
    /\ (forall e, In e present -> snd e <> NaN)
    /\ (forall e, In e missing -> snd e = NaN).
Proof.
  destruct (sort_values_descending
              (fun e : cell * scalar => scalar_isna (snd e))
              (fun e1 e2 => scalar_leb (snd e1) (snd e2)) s)
    as (present & missing & Heq & Hperm & Hsorted & Hp & Hm).
  - intros x y. unfold scalar_leb. rewrite !Z.leb_le. lia.
  - intros x y z. unfold scalar_leb. rewrite !Z.leb_le. lia.
  - exists present, missing. split; [exact Heq|]. split; [exact Hperm|].
    split; [|split].
    + unfold descending. clear -Hsorted.
      induction Hsorted as [|e l Hl IH He]; constructor; [exact IH|].
      eapply Forall_impl; [|exact He]. intros e' H.
      unfold scalar_leb in H. apply Z.leb_le in H. exact H.
    + intros e He. specialize (Hp e He). destruct (snd e); simpl in Hp;
        congruence.
    + intros e He. specialize (Hm e He). destruct (snd e); simpl in Hm;
        congruence.
Qed.

Lemma string_compare_trans (s1 s2 s3 : string) :
  String.compare s1 s2 <> Gt -> String.compare s2 s3 <> Gt ->
  String.compare s1 s3 <> Gt.
Proof.
  revert s2 s3; induction s1 as [|c1 s1 IH]; intros [|c2 s2] [|c3 s3];
    simpl; try congruence.
  unfold Ascii.compare.
  destruct (N.compare_spec (N_of_ascii c1) (N_of_ascii c2)) as [E12|L12|G12];
    try congruence;
    destruct (N.compare_spec (N_of_ascii c2) (N_of_ascii c3)) as [E23|L23|G23];
    try congruence; intros H1 H2.
  - rewrite E12, E23, N.compare_refl. apply (IH s2 s3); assumption.
  - rewrite E12. rewrite (proj2 (N.compare_lt_iff _ _) L23). discriminate.
  - rewrite <- E23. rewrite (proj2 (N.compare_lt_iff _ _) L12). discriminate.
  - rewrite (proj2 (N.compare_lt_iff _ _) (N.lt_trans _ _ _ L12 L23)).
    discriminate.
Qed.

Lemma string_leb_trans (s1 s2 s3 : string) :
  String.leb s1 s2 = true -> String.leb s2 s3 = true -> String.leb s1 s3 = true.
Proof.
  unfold String.leb. intros H1 H2.
  pose proof (@string_compare_trans s1 s2 s3) as H.
  destruct (String.compare s1 s2); try discriminate;
    destruct (String.compare s2 s3); try discriminate;
    destruct (String.compare s1 s3); try reflexivity;
    exfalso; apply H; congruence.
Qed.

Lemma cell_leb_total (a b : cell) : cell_leb a b = true \/ cell_leb b a = true.
Proof.
  destruct a as [|x|s], b as [|y|t]; simpl; auto.
  - rewrite !Z.leb_le. lia.
  - apply String.leb_total.
Qed.

Lemma cell_leb_trans (a b c : cell) :
  cell_leb a b = true -> cell_leb b c = true -> cell_leb a c = true.
Proof.
  destruct a as [|x|s], b as [|y|t], c as [|z|u]; simpl;
    try reflexivity; try discriminate.
  - rewrite !Z.leb_le. lia.
  - apply string_leb_trans.
Qed.

Lemma rows_sort_values_descending (i : nat) (rs : list (list cell)) :
  exists present missing,
    sort_values (fun r => is_null (cell_at i r))
                (fun r1 r2 => cell_leb (cell_at i r1) (cell_at i r2)) false rs
    = present ++ missing
    /\ Permutation rs (present ++ missing)
    /\ rows_descending i present
    /\ (forall r, In r present -> cell_at i r <> Null)
    /\ (forall r, In r missing -> cell_at i r = Null).
Proof.
  destruct (sort_values_descending
              (fun r : list cell => is_null (cell_at i r))
              (fun r1 r2 => cell_leb (cell_at i r1) (cell_at i r2)) rs)
    as (present & missing & Heq & Hperm & Hsorted & Hp & Hm).
  - intros x y. apply cell_leb_total.
  - intros x y z. apply cell_leb_trans.
  - exists present, missing. split; [exact Heq|]. split; [exact Hperm|].
    split; [exact Hsorted|]. split.
    + intros r Hr. specialize (Hp r Hr). destruct (cell_at i r);
        simpl in Hp; congruence.
    + intros r Hr. specialize (Hm r Hr). destruct (cell_at i r);
        simpl in Hm; congruence.
Qed.

(** C10.  A sort step whose [order] is anything but the string "asc" is
    executed exactly as the step with [order] "desc" and the same [by], on
    every relation: no error is raised on account of the order.  On a Series
    of a grouped reduction the step succeeds and leaves the entries
    rearranged from the greatest to the least value, missing values last; on
    a DataFrame whose [by] column exists and does not mix numbers with
    strings it leaves the rows rearranged in the same way. *)
Theorem sort_order_other_than_asc_is_descending (self : AnalyticsEngine)
    (rel : relation) (s1 s2 : json) (o : json) :
  getitem s1 "op" = Ok (JStr "sort") -> getitem s1 "order" = Ok o ->
  o <> JStr "asc" ->
  getitem s2 "op" = Ok (JStr "sort") -> getitem s2 "order" = Ok (JStr "desc") ->
  getitem s2 "by" = getitem s1 "by" ->
  exec_step self rel s1 = exec_step self rel s2
  /\ (forall name s, rel = Keyed name s ->
       exists present missing,
         exec_step self rel s1 = Ok (Next (Keyed name (present ++ missing)))
         /\ Permutation s (present ++ missing)
         /\ descending present
         /\ (forall e, In e present -> snd e <> NaN)
         /\ (forall e, In e missing -> snd e = NaN))
  /\ (forall d b col i, rel = Rows d ->
       getitem s1 "by" = Ok b -> _col self b = Ok col ->
       index_of col (columns d) = Some i ->
       existsb is_num (map (cell_at i) (rows d))
       && existsb is_str (map (cell_at i) (rows d)) = false ->
       exists present missing,
         exec_step self rel s1
         = Ok (Next (Rows (mkDataFrame (columns d) (present ++ missing))))
         /\ Permutation (rows d) (present ++ missing)
         /\ rows_descending i present
         /\ (forall r, In r present -> cell_at i r <> Null)
         /\ (forall r, In r missing -> cell_at i r = Null)).
Proof.
  intros Hop1 Ho1 Hneq Hop2 Ho2 Hby.
  pose proof (eq_str_false Hneq) as Hasc.
  unfold exec_step. rewrite Hop1, Hop2. simpl. rewrite Ho1, Ho2. simpl.
  rewrite Hasc, Hby. split; [reflexivity|]. split.
  - intros name s ->.
    destruct (series_sort_values_descending s)
      as (present & missing & Heq & Hrest).
    exists present, missing. rewrite Heq. split; [reflexivity | exact Hrest].
  - intros d b col i -> Hb Hcol Hi Hmix.
    destruct (rows_sort_values_descending i (rows d))
      as (present & missing & Heq & Hrest).
    exists present, missing. rewrite Hb. cbn [bind]. rewrite Hcol. cbn [bind].
    unfold df_sort_values. rewrite Hi, Hmix. cbn [bind]. rewrite Heq.
    split; [reflexivity | exact Hrest].
Qed.

Lemma sort_order_other_than_asc_is_descending_witness :
  exec_step sales_engine
            (Keyed "region" [(Str "North", Int 120); (Str "South", Int 150)])
            (step [("op", JStr "sort"); ("order", JStr "ascending")])
  = exec_step sales_engine
              (Keyed "region" [(Str "North", Int 120); (Str "South", Int 150)])
              sort_desc.
Proof.
  apply (@sort_order_other_than_asc_is_descending sales_engine
           (Keyed "region" [(Str "North", Int 120); (Str "South", Int 150)])
           (step [("op", JStr "sort"); ("order", JStr "ascending")])
           sort_desc (JStr "ascending"));
    try reflexivity.
  discriminate.
Defined.

End SortStep.

(* ================================================================= *)
(** ** Strings: [replace] and [strip] *)

Section Strings.

Lemma append_nil_r (s : string) : (s ++ "")%string = s.
Proof. induction s as [|c s IH]; simpl; congruence. Qed.

Lemma append_assoc (s t u : string) :
  ((s ++ t) ++ u)%string = (s ++ (t ++ u))%string.
Proof. induction s as [|c s IH]; simpl; congruence. Qed.

Lemma drop_app (n : nat) (u v : string) :
  (n <= String.length u)%nat -> drop n (u ++ v) = (drop n u ++ v)%string.
Proof.
  revert u; induction n as [|n IH]; intros u Hn; [reflexivity|].
  destruct u as [|c u]; simpl in *; [lia|]. apply IH; lia.
Qed.

Lemma drop_length (n : nat) (u : string) :
  (String.length (drop n u) <= String.length u)%nat.
Proof.
  revert u; induction n as [|n IH]; intros u; [simpl; lia|].
  destruct u as [|c u]; simpl; [lia|]. specialize (IH u); lia.
Qed.

Lemma prefix_app (p u v : string) :
  prefix p u = true -> prefix p (u ++ v) = true.
Proof.
  revert u; induction p as [|a p IH]; intros u H.
  - destruct (u ++ v)%string; reflexivity.
  - destruct u as [|b u]; simpl in *; [discriminate|].
    destruct (ascii_dec a b); [apply IH; exact H | discriminate].
Qed.

Lemma prefix_length (p u : string) :
  prefix p u = true -> (String.length p <= String.length u)%nat.
Proof.
  revert u; induction p as [|a p IH]; intros u H; simpl; [lia|].
  destruct u as [|b u]; simpl in *; [discriminate|].
  destruct (ascii_dec a b); [|discriminate]. specialize (IH u H); lia.
Qed.

Lemma prefix_before (p u v : string) (c : ascii) :
  mem c p = false -> prefix p (u ++ String c v) = true -> prefix p u = true.
Proof.
  revert u; induction p as [|a p IH]; intros u Hc H.
  - destruct u; reflexivity.
  - simpl in Hc. apply orb_false_iff in Hc. destruct Hc as [Hac Hc].
    apply Ascii.eqb_neq in Hac.
    destruct u as [|b u]; simpl in *.
    + destruct (ascii_dec a c); [contradiction|discriminate].
    + destruct (ascii_dec a b); [apply IH; assumption | discriminate].
Qed.

Section Replace.

(** The pattern removed: not empty and free of white space. *)
Variable p : string.
Hypothesis p_not_empty : p <> EmptyString.

Lemma replace_aux_skip (k : nat) (s : string) :
  replace_aux p "" k s = replace_aux p "" 0 (drop k s).
Proof.
  revert s; induction k as [|k IH]; intros s; [reflexivity|].
  destruct s as [|c s]; [reflexivity|]. simpl. apply IH.
Qed.

Lemma replace_cons (c : ascii) (s : string) :
  replace p "" (String c s)
  = if prefix p (String c s) then replace p "" (drop (String.length p - 1) s)
    else String c (replace p "" s).
Proof.
  unfold replace. cbn [replace_aux].
  destruct (prefix p (String c s)); [|reflexivity].
  rewrite replace_aux_skip. reflexivity.
Qed.

Lemma replace_nil : replace p "" "" = "".
Proof. reflexivity. Qed.

Lemma prefix_other (c : ascii) (s : string) :
  mem c p = false -> prefix p (String c s) = false.
Proof.
  intros Hc. destruct p as [|a q]; [contradiction|].
  simpl in *. apply orb_false_iff in Hc. destruct Hc as [Hac _].
  apply Ascii.eqb_neq in Hac. destruct (ascii_dec a c); [contradiction|reflexivity].
Qed.

(** A character that does not occur in the pattern separates the
    occurrences on its left from the ones on its right. *)
Lemma replace_separator (c : ascii) (a b : string) :
  mem c p = false ->
  replace p "" (a ++ String c b) = (replace p "" a ++ String c (replace p "" b))%string.
Proof.
  intros Hc.
  remember (String.length a) as n eqn:Hn.
  revert a Hn. induction n as [n IH] using lt_wf_ind. intros a Hn.
  destruct a as [|x a].
  - simpl. rewrite replace_cons, prefix_other by exact Hc. reflexivity.
  - change (String x a ++ String c b)%string with (String x (a ++ String c b)).
    rewrite !replace_cons.
    destruct (prefix p (String x (a ++ String c b))) eqn:E.
    + assert (E' : prefix p (String x a) = true)
        by (apply prefix_before with (v := b) (c := c); [exact Hc | exact E]).
      rewrite E'. pose proof (@prefix_length _ _ E') as Hlen. simpl in Hlen.
      rewrite drop_app by lia.
      apply (IH (String.length (drop (String.length p - 1) a))); [|reflexivity].
      subst n. simpl. pose proof (drop_length (String.length p - 1) a). lia.
    + destruct (prefix p (String x a)) eqn:E'.
      * apply prefix_app with (v := String c b) in E'. simpl in E', E. congruence.
      * simpl. f_equal. apply (IH (String.length a)); [subst n; simpl; lia|reflexivity].
Qed.

Lemma replace_left (w s : string) :
  (forall c, mem c w = true -> mem c p = false) ->
  replace p "" (w ++ s) = (w ++ replace p "" s)%string.
Proof.
  induction w as [|c w IH]; intros Hw; [reflexivity|].
  simpl. rewrite replace_cons, prefix_other.
  - f_equal. apply IH. intros d Hd. apply Hw. simpl. rewrite Hd.
    apply orb_true_r.
  - apply Hw. simpl. rewrite Ascii.eqb_refl. reflexivity.
Qed.

Lemma replace_right (s w : string) :
  (forall c, mem c w = true -> mem c p = false) ->
  replace p "" (s ++ w) = (replace p "" s ++ w)%string.
Proof.
  intros Hw. destruct w as [|c w].
  - rewrite !append_nil_r. reflexivity.
  - rewrite replace_separator.
    + f_equal. f_equal. rewrite <- (append_nil_r w) at 1.
      rewrite replace_left, replace_nil, append_nil_r; [reflexivity|].
      intros d Hd. apply Hw. simpl. rewrite Hd. apply orb_true_r.
    + apply Hw. simpl. rewrite Ascii.eqb_refl. reflexivity.
Qed.

End Replace.

Section Strip.

Variable sp : ascii -> bool.

Lemma lstrip_all (w : string) : all_by sp w = true -> lstrip_by sp w = "".
Proof.
  induction w as [|c w IH]; simpl; [reflexivity|].
  intros H. apply andb_true_iff in H. destruct H as [-> H]. apply IH; exact H.
Qed.

Lemma rstrip_all (w : string) : all_by sp w = true -> rstrip_by sp w = "".
Proof.
  induction w as [|c w IH]; simpl; [reflexivity|].
  intros H. apply andb_true_iff in H. destruct H as [-> H]. rewrite IH by exact H.
  reflexivity.
Qed.

Lemma lstrip_app_left (w s : string) :
  all_by sp w = true -> lstrip_by sp (w ++ s) = lstrip_by sp s.
Proof.
  induction w as [|c w IH]; simpl; [reflexivity|].
  intros H. apply andb_true_iff in H. destruct H as [-> H]. apply IH; exact H.
Qed.

Lemma rstrip_app_right (s w : string) :
  all_by sp w = true -> rstrip_by sp (s ++ w) = rstrip_by sp s.
Proof.
  intros Hw. induction s as [|c s IH]; simpl.
  - apply rstrip_all; exact Hw.
  - rewrite IH. reflexivity.
Qed.

Lemma strip_app (lead s trail : string) :
  all_by sp lead = true -> all_by sp trail = true ->
  strip_by sp (lead ++ s ++ trail) = strip_by sp s.
Proof.
  intros Hl Ht. unfold strip_by. rewrite lstrip_app_left by exact Hl.
  induction s as [|c s IH]; simpl.
  - rewrite lstrip_all by exact Ht. reflexivity.
  - destruct (sp c); [exact IH|].
    change (String c (s ++ trail)) with (String c s ++ trail)%string.
    apply rstrip_app_right; exact Ht.
Qed.

Lemma lstrip_split (s : string) :
  exists lead, all_by sp lead = true /\ s = (lead ++ lstrip_by sp s)%string.
Proof.
  induction s as [|c s (lead & Hl & Hs)]; simpl.
  - exists ""; split; reflexivity.
  - destruct (sp c) eqn:E.
    + exists (String c lead); split; [simpl; rewrite E, Hl; reflexivity|].
      simpl; f_equal; exact Hs.
    + exists ""; split; reflexivity.
Qed.

Lemma rstrip_split (s : string) :
  exists trail, all_by sp trail = true /\ s = (rstrip_by sp s ++ trail)%string.
Proof.
  induction s as [|c s (trail & Ht & Hs)]; simpl.
  - exists ""; split; reflexivity.
  - destruct (rstrip_by sp s) as [|d r] eqn:E.
    + destruct (sp c) eqn:Ec.
      * exists (String c trail); split; [simpl; rewrite Ec, Ht; reflexivity|].
        simpl in *; f_equal; exact Hs.
      * exists trail; split; [exact Ht|]. simpl in *; f_equal; exact Hs.
    + exists trail; split; [exact Ht|]. simpl in *; f_equal; exact Hs.
Qed.

Lemma strip_split (s : string) :
  exists lead trail,
    all_by sp lead = true /\ all_by sp trail = true
    /\ s = (lead ++ strip_by sp s ++ trail)%string.
Proof.
  destruct (lstrip_split s) as (lead & Hl & Hs).
  destruct (rstrip_split (lstrip_by sp s)) as (trail & Ht & Hs').
  exists lead, trail. split; [exact Hl|]. split; [exact Ht|].
  unfold strip_by. rewrite <- Hs'. exact Hs.
Qed.

End Strip.

End Strings.

(* ================================================================= *)
(** ** The planner *)

Section PlannerProperties.

Lemma all_by_mem (sp : ascii -> bool) (w : string) (c : ascii) :
  all_by sp w = true -> mem c w = true -> sp c = true.
Proof.
  induction w as [|a w IH]; simpl; [discriminate|].
  intros H Hm. apply andb_true_iff in H. destruct H as [Ha Hw].
  apply orb_true_iff in Hm. destruct Hm as [Hm|Hm]; [|apply IH; assumption].
  apply Ascii.eqb_eq in Hm. subst c. exact Ha.
Qed.

Lemma space_not_in_fence_json (c : ascii) :
  isspace c = true -> mem c fence_json = false.
Proof.
  intros H. destruct (mem c fence_json) eqn:E; [|reflexivity].
  unfold fence_json in E. cbn [mem] in E.
  repeat (apply orb_true_iff in E; destruct E as [E|E]);
    try discriminate E;
    apply Ascii.eqb_eq in E; subst c; vm_compute in H; discriminate H.
Qed.

Lemma space_not_in_fence (c : ascii) :
  isspace c = true -> mem c fence = false.
Proof.
  intros H. destruct (mem c fence) eqn:E; [|reflexivity].
  unfold fence in E. cbn [mem] in E.
  repeat (apply orb_true_iff in E; destruct E as [E|E]);
    try discriminate E;
    apply Ascii.eqb_eq in E; subst c; vm_compute in H; discriminate H.
Qed.

Lemma fence_json_not_empty : fence_json <> EmptyString.
Proof. discriminate. Qed.

Lemma fence_not_empty : fence <> EmptyString.
Proof. discriminate. Qed.

(** White space around a string passes through the removal of a fence
    marker. *)
Lemma replace_fence_around (p lead s trail : string) :
  p <> EmptyString -> (forall c, isspace c = true -> mem c p = false) ->
  all_by isspace lead = true -> all_by isspace trail = true ->
  replace p "" (lead ++ s ++ trail) = (lead ++ replace p "" s ++ trail)%string.
Proof.
  intros Hp Hsp Hl Ht.
  rewrite (@replace_left p Hp lead (s ++ trail)).
  - f_equal. apply (@replace_right p Hp).
    intros c Hc. apply Hsp. apply all_by_mem with (w := trail); assumption.
  - intros c Hc. apply Hsp. apply all_by_mem with (w := lead); assumption.
Qed.

(** The first [strip] of [clean] changes nothing in the end. *)
Lemma clean_without_first_strip (s : string) :
  clean s = strip (replace fence "" (replace fence_json "" s)).
Proof.
  destruct (strip_split isspace s) as (lead & trail & Hl & Ht & Hs).
  unfold clean. fold (strip s) in Hs.
  rewrite Hs at 2.
  rewrite (@replace_fence_around fence_json lead (strip s) trail
             fence_json_not_empty space_not_in_fence_json Hl Ht).
  rewrite (@replace_fence_around fence lead (replace fence_json "" (strip s))
             trail fence_not_empty space_not_in_fence Hl Ht).
  unfold strip at 3. rewrite strip_app by assumption. reflexivity.
Qed.

Lemma isspace_nl : all_by isspace nl = true.
Proof. reflexivity. Qed.








End PlannerProperties.

(* ================================================================= *)
(** ** The dataset state *)

Section DatasetState.

(** C8.  With no candidate file in the upload directory
    [initialize_rag_system] returns [False] and leaves every field of the
    state as it was, whether or not a rebuild is forced; in particular a
    ready state stays as it is. *)
Theorem initialize_without_files_keeps_state (w : World) (force_rebuild : bool)
    (st : RAGState) :
  excel_files w = [] ->
  initialize_rag_system w force_rebuild st = (false, st).
Proof. intros H. unfold initialize_rag_system. rewrite H. reflexivity. Qed.

Lemma initialize_without_files_keeps_state_witness :
  is_initialized ready_state = true
  /\ initialize_rag_system no_file_world true ready_state = (false, ready_state).
Proof.
  split; [vm_compute; reflexivity|].
  apply (@initialize_without_files_keeps_state no_file_world true ready_state).
  reflexivity.
Defined.

End DatasetState.

(* ================================================================= *)
(** ** The vector store *)

Section VectorStoreProperties.

Lemma map_res_pointwise {A B} (f : A -> res B) (g : A -> B) (l : list A) :
  (forall a, In a l -> f a = Ok (g a)) -> map_res f l = Ok (map g l).
Proof.
  induction l as [|a l IH]; intros H; simpl; [reflexivity|].
  rewrite (H a) by (left; reflexivity). simpl.
  rewrite IH by (intros b Hb; apply H; right; exact Hb). reflexivity.
Qed.

Lemma map_res_app {A B} (f : A -> res B) (l1 l2 : list A) (r1 r2 : list B) :
  map_res f l1 = Ok r1 -> map_res f l2 = Ok r2 ->
  map_res f (l1 ++ l2) = Ok (r1 ++ r2).
Proof.
  revert r1; induction l1 as [|a l1 IH]; intros r1 H1 H2; simpl in *.
  - injection H1 as <-. exact H2.
  - destruct (f a) as [b|e|]; simpl in *; try discriminate.
    destruct (map_res f l1) as [bs|e|]; simpl in *; try discriminate.
    injection H1 as <-. rewrite (IH bs eq_refl H2). reflexivity.
Qed.

Lemma map_fst_combine {A B} (l : list A) (l' : list B) :
  List.length l = List.length l' -> map fst (combine l l') = l.
Proof.
  revert l'; induction l as [|a l IH]; intros [|b l'] H; simpl in *;
    try reflexivity; try discriminate.
  f_equal. apply IH. lia.
Qed.

Lemma map_nth_seq {A} (l : list A) (d : A) :
  map (fun j => nth j l d) (seq 0 (List.length l)) = l.
Proof.
  induction l as [|a l IH]; simpl; [reflexivity|].
  f_equal. rewrite <- seq_shift, map_map. exact IH.
Qed.

Lemma list_getitem_nth {A} (xs : list A) (d : A) (i : Z) :
  (0 <= i < Z.of_nat (List.length xs))%Z ->
  list_getitem xs i = Ok (nth (Z.to_nat i) xs d).
Proof.
  intros H. unfold list_getitem.
  destruct (i <? 0)%Z eqn:E1; [apply Z.ltb_lt in E1; lia|].
  destruct ((i <? 0) || (Z.of_nat (List.length xs) <=? i))%Z eqn:E2.
  - apply orb_true_iff in E2. destruct E2 as [E2|E2];
      [apply Z.ltb_lt in E2 | apply Z.leb_le in E2]; lia.
  - destruct (nth_error xs (Z.to_nat i)) as [x|] eqn:E3.
    + rewrite (nth_error_nth _ _ d E3). reflexivity.
    + apply nth_error_None in E3. lia.
Qed.

Lemma list_getitem_minus_one {A} (xs : list A) (x : A) :
  nth_error xs (List.length xs - 1) = Some x ->
  list_getitem xs (-1) = Ok x.
Proof.
  intros H. assert (Hn : (0 < List.length xs)%nat).
  { destruct xs; [discriminate|simpl; lia]. }
  unfold list_getitem. change (-1 <? 0)%Z with true. cbv iota zeta.
  destruct ((-1 + Z.of_nat (List.length xs) <? 0)
            || (Z.of_nat (List.length xs) <=? -1 + Z.of_nat (List.length xs)))%Z
    eqn:E.
  - apply orb_true_iff in E. destruct E as [E|E];
      [apply Z.ltb_lt in E | apply Z.leb_le in E]; lia.
  - replace (Z.to_nat (-1 + Z.of_nat (List.length xs)))
      with (List.length xs - 1)%nat by lia.
    rewrite H. reflexivity.
Qed.

(** C6, what the code does.  When the store holds [n >= 1] texts with their
    embeddings and more than [n] neighbours are asked for, [search] returns
    the [n] stored texts, each once, followed by as many copies of the last
    stored text as are needed to make [k] items: the labels [-1] by which
    the index fills up its answer are read as positions counted from the
    end. *)
Theorem search_beyond_size_repeats_last_text (vs : VectorStore) (q : vector)
    (k : Z) (last : string) :
  List.length (stored (index vs)) = List.length (texts vs) ->
  List.length q = dim (index vs) ->
  nth_error (texts vs) (List.length (texts vs) - 1) = Some last ->
  (Z.of_nat (List.length (texts vs)) < k)%Z ->
  exists found,
    search vs q k
    = Ok (found ++ repeat last (Z.to_nat k - List.length (texts vs)))
    /\ Permutation found (texts vs).
Proof.
  intros Hlen Hq Hlast Hk.
  set (n := List.length (texts vs)) in *.
  assert (Hn : (0 < n)%nat).
  { unfold n. destruct (texts vs); [discriminate|simpl; lia]. }
  set (labelled := combine (map Z.of_nat (seq 0 (List.length (stored (index vs)))))
                           (map (dist2 q) (stored (index vs)))).
  set (ranked := map fst (isort (fun a b => Qle_bool (snd a) (snd b)) labelled)).
  assert (Hperm : Permutation ranked (map Z.of_nat (seq 0 n))).
  { unfold ranked. rewrite <- isort_perm. unfold labelled.
    rewrite map_fst_combine; [rewrite Hlen; reflexivity|].
    rewrite !length_map, length_seq. reflexivity. }
  assert (Hrlen : List.length ranked = n).
  { rewrite (Permutation_length Hperm), length_map, length_seq. reflexivity. }
  exists (map (fun i => nth (Z.to_nat i) (texts vs) "") ranked). split.
  - unfold search, index_search. rewrite Hq, Nat.eqb_refl. cbn [negb].
    destruct (k <=? 0)%Z eqn:E; [apply Z.leb_le in E; lia|].
    cbn [bind]. fold labelled. fold ranked. rewrite Hlen. fold n.
    rewrite firstn_all2 by lia.
    apply map_res_app.
    + apply map_res_pointwise. intros i Hi.
      apply list_getitem_nth. fold n.
      apply (Permutation_in i Hperm) in Hi. apply in_map_iff in Hi.
      destruct Hi as (j & <- & Hj). apply in_seq in Hj. lia.
    + rewrite map_res_pointwise with (g := fun _ => last).
      * rewrite map_repeat. reflexivity.
      * intros i Hi. apply repeat_spec in Hi. subst i.
        apply list_getitem_minus_one. exact Hlast.
  - rewrite (Permutation_map _ Hperm), map_map.
    erewrite map_ext; [unfold n; rewrite map_nth_seq; reflexivity|].
    intros j. simpl. rewrite Nat2Z.id. reflexivity.
Qed.

Lemma search_beyond_size_repeats_last_text_witness :
  exists found,
    search two_store [1; 0]%Q default_k
    = Ok (found ++ repeat "dataset summary" (Z.to_nat default_k - 2))
    /\ Permutation found two_texts.
Proof.
  apply (@search_beyond_size_repeats_last_text two_store [1; 0]%Q default_k
           "dataset summary"); try reflexivity.
Defined.

(** The call made by [get_context] on that store returns five texts for two
    stored ones. *)
Lemma search_two_store_default_k :
  __init__ two_embeddings two_texts = Ok two_store
  /\ search two_store [1; 0]%Q default_k
     = Ok ["sales column"; "dataset summary"; "dataset summary";
           "dataset summary"; "dataset summary"].
Proof. split; vm_compute; reflexivity. Qed.




End VectorStoreProperties.

(* ================================================================= *)
(** ** More on strings: what [strip] leaves *)

Section StripShape.

Variable sp : ascii -> bool.

Lemma lstrip_first (s : string) (c : ascii) (r : string) :
  lstrip_by sp s = String c r -> sp c = false.
Proof.
  induction s as [|a s IH]; simpl; [discriminate|].
  destruct (sp a) eqn:E; [exact IH|]. intros H. injection H as <- _. exact E.
Qed.

Lemma rstrip_cons_keep (c : ascii) (s : string) :
  sp c = false -> rstrip_by sp (String c s) = String c (rstrip_by sp s).
Proof. intros H. simpl. rewrite H. destruct (rstrip_by sp s); reflexivity. Qed.

Lemma rstrip_first (s : string) (a : ascii) (r : string) :
  rstrip_by sp s = String a r -> exists t, s = String a t.
Proof.
  destruct s as [|c s]; simpl; [discriminate|].
  destruct (rstrip_by sp s); [destruct (sp c)|]; intros H;
    try discriminate; injection H as <- _; eexists; reflexivity.
Qed.

Lemma rstrip_last (s r : string) (c : ascii) :
  rstrip_by sp s = (r ++ String c EmptyString)%string -> sp c = false.
Proof.
  revert r; induction s as [|a s IH]; intros r; simpl.
  - destruct r; discriminate.
  - destruct (rstrip_by sp s) as [|b t] eqn:E.
    + destruct (sp a) eqn:Ea; [destruct r; discriminate|].
      destruct r as [|x r]; simpl; intros H.
      * injection H as <-. exact Ea.
      * injection H as _ H. destruct r; discriminate.
    + destruct r as [|x r]; simpl; intros H; [discriminate|].
      injection H as _ H. apply (IH r). exact H.
Qed.

Lemma strip_first (s : string) (c : ascii) (r : string) :
  strip_by sp s = String c r -> sp c = false.
Proof.
  unfold strip_by. destruct (lstrip_by sp s) as [|a t] eqn:E; [discriminate|].
  pose proof (lstrip_first _ E) as Ha.
  rewrite rstrip_cons_keep by exact Ha. intros H. injection H as <- _. exact Ha.
Qed.

Lemma strip_last (s r : string) (c : ascii) :
  strip_by sp s = (r ++ String c EmptyString)%string -> sp c = false.
Proof. unfold strip_by. apply rstrip_last. Qed.

Lemma rstrip_idempotent (s : string) :
  rstrip_by sp (rstrip_by sp s) = rstrip_by sp s.
Proof.
  induction s as [|c s IH]; simpl; [reflexivity|].
  destruct (rstrip_by sp s) as [|b t] eqn:E.
  - destruct (sp c) eqn:Ec; simpl; [reflexivity|]. rewrite Ec. reflexivity.
  - simpl in *. rewrite IH. reflexivity.
Qed.

Lemma strip_idempotent (s : string) :
  strip_by sp (strip_by sp s) = strip_by sp s.
Proof.
  unfold strip_by.
  destruct (lstrip_by sp s) as [|a t] eqn:E; [reflexivity|].
  pose proof (lstrip_first _ E) as Ha.
  rewrite rstrip_cons_keep by exact Ha.
  simpl lstrip_by. rewrite Ha.
  rewrite <- rstrip_cons_keep by exact Ha. apply rstrip_idempotent.
Qed.

Lemma all_by_lstrip (p : ascii -> bool) (s : string) :
  all_by p s = true -> all_by p (lstrip_by sp s) = true.
Proof.
  induction s as [|c s IH]; simpl; [reflexivity|].
  intros H. destruct (sp c); [|exact H].
  apply andb_true_iff in H. apply IH, H.
Qed.

Lemma all_by_rstrip (p : ascii -> bool) (s : string) :
  all_by p s = true -> all_by p (rstrip_by sp s) = true.
Proof.
  induction s as [|c s IH]; simpl; [reflexivity|].
  intros H. apply andb_true_iff in H. destruct H as [Hc Hs].
  specialize (IH Hs).
  destruct (rstrip_by sp s) as [|b t].
  - destruct (sp c); simpl; [reflexivity|]. rewrite Hc. reflexivity.
  - simpl in *. rewrite Hc. exact IH.
Qed.

Lemma no_adjacent_tail (c a : ascii) (s : string) :
  no_adjacent c (String a s) = true -> no_adjacent c s = true.
Proof.
  simpl. destruct s as [|b t]; [reflexivity|].
  intros H. apply andb_true_iff in H. apply H.
Qed.

Lemma no_adjacent_lstrip (c : ascii) (s : string) :
  no_adjacent c s = true -> no_adjacent c (lstrip_by sp s) = true.
Proof.
  induction s as [|a s IH]; [reflexivity|].
  intros H. simpl lstrip_by. destruct (sp a); [|exact H].
  apply IH. eapply no_adjacent_tail; exact H.
Qed.

Lemma no_adjacent_rstrip (c : ascii) (s : string) :
  no_adjacent c s = true -> no_adjacent c (rstrip_by sp s) = true.
Proof.
  induction s as [|a s IH]; [reflexivity|].
  intros H. pose proof (no_adjacent_tail _ _ _ H) as Hs. specialize (IH Hs).
  simpl rstrip_by. destruct (rstrip_by sp s) as [|b t] eqn:E.
  - destruct (sp a); reflexivity.
  - destruct (rstrip_first _ E) as [t' ->].
    simpl in H. simpl. apply andb_true_iff in H. destruct H as [H1 _].
    rewrite H1. exact IH.
Qed.

End StripShape.

(* ================================================================= *)
(** ** More on the schema builder *)

Section SchemaInvariants.

Lemma alnum_not_underscore (c : ascii) :
  is_lower_alnum c = true -> Ascii.eqb c "_" = false.
Proof.
  intros H. destruct (Ascii.eqb c "_") eqn:E; [|reflexivity].
  apply Ascii.eqb_eq in E. subst c. discriminate H.
Qed.

Lemma sub_non_alnum_chars (b : bool) (s : string) :
  all_by is_key_char (sub_non_alnum b s) = true.
Proof.
  revert b; induction s as [|c s IH]; intros b; simpl; [reflexivity|].
  destruct (is_lower_alnum c) eqn:E.
  - simpl. unfold is_key_char at 1. rewrite E. apply IH.
  - destruct b; [apply IH|]. simpl. apply IH.
Qed.

Lemma no_adjacent_cons (c x y : ascii) (t : string) :
  no_adjacent c (String x (String y t))
  = negb (Ascii.eqb x c && Ascii.eqb y c) && no_adjacent c (String y t).
Proof. reflexivity. Qed.

Lemma sub_non_alnum_shape (b : bool) (s : string) :
  no_adjacent "_" (sub_non_alnum b s) = true
  /\ (b = true -> starts_with "_" (sub_non_alnum b s) = false).
Proof.
  revert b; induction s as [|c s IH]; intros b; simpl; [split; reflexivity|].
  destruct (is_lower_alnum c) eqn:E.
  - pose proof (alnum_not_underscore _ E) as Hc.
    destruct (IH false) as [H1 _].
    split; [|intros _; cbn [starts_with]; exact Hc].
    destruct (sub_non_alnum false s); [reflexivity|].
    rewrite no_adjacent_cons, Hc, H1. reflexivity.
  - destruct b; [apply IH|].
    destruct (IH true) as [H1 H2]. specialize (H2 eq_refl).
    split; [|discriminate].
    destruct (sub_non_alnum true s) as [|a t]; [reflexivity|].
    cbn [starts_with] in H2.
    rewrite no_adjacent_cons, H2, H1, andb_false_r. reflexivity.
Qed.

Lemma lower_key_char (c : ascii) : is_key_char c = true -> lower_char c = c.
Proof.
  destruct c as [[] [] [] [] [] [] [] []]; intros H;
    try discriminate H; reflexivity.
Qed.

Lemma lower_fixed (s : string) : all_by is_key_char s = true -> lower s = s.
Proof.
  induction s as [|c s IH]; simpl; [reflexivity|].
  intros H. apply andb_true_iff in H. destruct H as [Hc Hs].
  rewrite (lower_key_char _ Hc), (IH Hs). reflexivity.
Qed.

Lemma sub_non_alnum_fixed (b : bool) (s : string) :
  all_by is_key_char s = true -> no_adjacent "_" s = true ->
  (b = true -> starts_with "_" s = false) ->
  sub_non_alnum b s = s.
Proof.
  revert b; induction s as [|c s IH]; intros b Hall Hadj Hb; [reflexivity|].
  pose proof (no_adjacent_tail _ _ _ Hadj) as Hadj'.
  simpl in Hall. apply andb_true_iff in Hall. destruct Hall as [Hc Hs].
  simpl. unfold is_key_char in Hc. destruct (is_lower_alnum c) eqn:E.
  - f_equal. apply IH; [exact Hs | exact Hadj' | discriminate].
  - simpl in Hc. destruct b; [specialize (Hb eq_refl); simpl in Hb; congruence|].
    apply Ascii.eqb_eq in Hc. subst c. f_equal.
    apply IH; [exact Hs | exact Hadj' | intros _].
    destruct s as [|a t]; [reflexivity|].
    simpl in Hadj. apply andb_true_iff in Hadj. destruct Hadj as [H1 _].
    simpl. destruct (Ascii.eqb a "_"); [discriminate H1 | reflexivity].
Qed.

Lemma normalize_chars (col : string) :
  all_by is_key_char (normalize col) = true.
Proof.
  unfold normalize, strip_by.
  apply all_by_rstrip, all_by_lstrip, sub_non_alnum_chars.
Qed.

Lemma normalize_no_adjacent (col : string) :
  no_adjacent "_" (normalize col) = true.
Proof.
  unfold normalize, strip_by.
  apply no_adjacent_rstrip, no_adjacent_lstrip, sub_non_alnum_shape.
Qed.

(** X1.  A semantic key is made of the characters a-z, 0-9 and the
    underscore only; it has no two underscores in a row and neither starts
    nor ends with an underscore. *)
Theorem normalize_shape (col : string) :
  all_by is_key_char (normalize col) = true
  /\ no_adjacent "_" (normalize col) = true
  /\ (forall r, normalize col <> String "_" r)
  /\ (forall r, normalize col <> (r ++ "_")%string).
Proof.
  split; [apply normalize_chars|]. split; [apply normalize_no_adjacent|].
  split; intros r H.
  - unfold normalize in H. apply strip_first in H. discriminate H.
  - unfold normalize in H. apply strip_last in H. discriminate H.
Qed.

(** X2.  Normalizing is idempotent: a semantic key is its own semantic
    key. *)
Theorem normalize_idempotent (col : string) :
  normalize (normalize col) = normalize col.
Proof.
  pose proof (normalize_chars col) as Hc.
  pose proof (normalize_no_adjacent col) as Ha.
  unfold normalize at 1.
  rewrite (@lower_fixed (normalize col) Hc).
  rewrite (@sub_non_alnum_fixed false (normalize col) Hc Ha) by discriminate.
  unfold normalize. apply strip_idempotent.
Qed.

Lemma assoc_dict_set_same {V} (k : string) (v : V) (d : list (string * V)) :
  assoc k (dict_set k v d) = Some v.
Proof.
  induction d as [|[k0 v0] d IH]; simpl.
  - rewrite String.eqb_refl. reflexivity.
  - destruct (String.eqb k k0) eqn:E; simpl.
    + rewrite String.eqb_refl. reflexivity.
    + rewrite E. exact IH.
Qed.

Lemma assoc_dict_set_other {V} (k k' : string) (v : V) (d : list (string * V)) :
  k <> k' -> assoc k (dict_set k' v d) = assoc k d.
Proof.
  intros Hne. apply String.eqb_neq in Hne.
  induction d as [|[k0 v0] d IH]; simpl.
  - rewrite Hne. reflexivity.
  - destruct (String.eqb k' k0) eqn:E; simpl.
    + apply String.eqb_eq in E. subst k0. rewrite Hne. reflexivity.
    + destruct (String.eqb k k0); [reflexivity | exact IH].
Qed.

Lemma fold_dict_set_keeps (cols : list string) (acc : Schema) (k : string) :
  (forall c, In c cols -> normalize c <> k) ->
  assoc k (fold_left (fun schema col => dict_set (normalize col) col schema)
                     cols acc)
  = assoc k acc.
Proof.
  revert acc; induction cols as [|c cols IH]; intros acc H; simpl; [reflexivity|].
  rewrite IH by (intros c' Hc'; apply H; right; exact Hc').
  apply assoc_dict_set_other. intros E. apply (H c); [left; reflexivity|].
  symmetry; exact E.
Qed.

(** X3.  The schema maps the semantic key of a column to that column unless
    a later column has the same semantic key: of several columns that
    normalize alike the last one wins, without any error. *)
Theorem build_schema_last_column_wins (d : DataFrame) (before after : list string)
    (col : string) :
  columns d = before ++ col :: after ->
  (forall c, In c after -> normalize c <> normalize col) ->
  assoc (normalize col) (build_schema d) = Some col.
Proof.
  intros Hcols Hafter. unfold build_schema. rewrite Hcols.
  rewrite fold_left_app. simpl.
  rewrite fold_dict_set_keeps by exact Hafter.
  apply assoc_dict_set_same.
Qed.

Lemma build_schema_last_column_wins_witness :
  assoc (normalize "Unit Cost")
        (build_schema (mkDataFrame ["unit cost"; "Unit Cost"; "Vendor"] []))
  = Some "Unit Cost".
Proof.
  apply (@build_schema_last_column_wins
           (mkDataFrame ["unit cost"; "Unit Cost"; "Vendor"] [])
           ["unit cost"] ["Vendor"] "Unit Cost").
  - reflexivity.
  - intros c [<-|[]]. discriminate.
Defined.

Lemma dict_set_keys {V} (k : string) (v : V) (d : list (string * V)) :
  NoDup (map fst d) ->
  NoDup (map fst (dict_set k v d))
  /\ forall k', In k' (map fst (dict_set k v d)) <-> k' = k \/ In k' (map fst d).
Proof.
  induction d as [|[k0 v0] d IH]; simpl; intros Hnd.
  - split; [constructor; [intros []|constructor]|]. intros k'. split.
    + intros [->|[]]; left; reflexivity.
    + intros [->|[]]; left; reflexivity.
  - inversion Hnd as [|? ? Hk0 Hd]; subst.
    destruct (String.eqb k k0) eqn:E.
    + apply String.eqb_eq in E. subst k0. simpl. split; [exact Hnd|].
      intros k'. split.
      * intros [H|H]; [left; symmetry; exact H | right; right; exact H].
      * intros [H|[H|H]];
          [left; symmetry; exact H | left; exact H | right; exact H].
    + apply String.eqb_neq in E. destruct (IH Hd) as [IH1 IH2]. simpl. split.
      * constructor; [|exact IH1]. rewrite IH2. intros [H|H]; [congruence|tauto].
      * intros k'. rewrite IH2. tauto.
Qed.

Lemma dict_set_entries {V} (k : string) (v : V) (d : list (string * V))
    (k' : string) (v' : V) :
  In (k', v') (dict_set k v d) -> (k', v') = (k, v) \/ In (k', v') d.
Proof.
  induction d as [|[k0 v0] d IH]; simpl.
  - intros [H|[]]; left; symmetry; exact H.
  - destruct (String.eqb k k0); simpl.
    + intros [H|H]; [left; symmetry; exact H | right; right; exact H].
    + intros [H|H]; [right; left; exact H|].
      destruct (IH H) as [H'|H']; [left; exact H' | right; right; exact H'].
Qed.

Lemma fold_dict_set_invariant (cols : list string) (acc : Schema) :
  NoDup (map fst acc) ->
  NoDup (map fst (fold_left (fun schema col => dict_set (normalize col) col schema)
                            cols acc))
  /\ forall k c,
       In (k, c) (fold_left (fun schema col => dict_set (normalize col) col schema)
                            cols acc) ->
       (In c cols /\ normalize c = k) \/ In (k, c) acc.
Proof.
  revert acc; induction cols as [|col cols IH]; intros acc Hnd; simpl.
  - split; [exact Hnd|]. intros k c H; right; exact H.
  - destruct (dict_set_keys (normalize col) col acc Hnd) as [Hnd' _].
    destruct (IH _ Hnd') as [H1 H2]. split; [exact H1|].
    intros k c H. destruct (H2 k c H) as [[Hin Hk]|Hin].
    + left; split; [right; exact Hin | exact Hk].
    + destruct (dict_set_entries _ _ _ _ _ Hin) as [Heq|Hacc].
      * injection Heq as -> ->. left; split; [left|]; reflexivity.
      * right; exact Hacc.
Qed.

(** X4.  The schema built from a dataset has no semantic key twice, and
    every entry pairs a column of the dataset with the semantic key of that
    very column. *)
Theorem build_schema_well_formed (d : DataFrame) :
  NoDup (map fst (build_schema d))
  /\ forall k col, In (k, col) (build_schema d) ->
                   In col (columns d) /\ normalize col = k.
Proof.
  unfold build_schema.
  destruct (fold_dict_set_invariant (columns d) [] (NoDup_nil _)) as [H1 H2].
  split; [exact H1|]. intros k col H.
  destruct (H2 k col H) as [H'|[]]. exact H'.
Qed.

End SchemaInvariants.

(* ================================================================= *)
(** ** More on the analytics engine *)

Section EngineSteps.

Ltac split_match H :=
  repeat (match type of H with
          | context [match ?x with _ => _ end] => destruct x eqn:?
          end; cbn [bind] in H; try discriminate H).

Lemma exec_step_return_not_none (self : AnalyticsEngine) (rel : relation)
    (stp : json) (v : result) :
  exec_step self rel stp = Ok (Return v) -> v <> RNone.
Proof.
  intros H. unfold exec_step in H. unfold bind in H.
  split_match H; injection H as <-; discriminate.
Qed.

Lemma loop_return_not_none (self : AnalyticsEngine) (steps : list json)
    (rel : relation) (v : result) :
  loop self rel steps = Ok (Return v) -> v <> RNone.
Proof.
  revert rel; induction steps as [|stp steps IH]; intros rel; simpl;
    [discriminate|].
  destruct (exec_step self rel stp) as [[rel'|v']|e|] eqn:E; simpl;
    try discriminate.
  - apply IH.
  - intros H. injection H as <-. eapply exec_step_return_not_none; exact E.
Qed.

Lemma run_steps_not_none (self : AnalyticsEngine) (steps : list json)
    (rel : relation) :
  run_steps self rel steps <> Ok RNone.
Proof.
  unfold run_steps.
  destruct (loop self rel steps) as [[rel'|v]|e|] eqn:E; simpl;
    try discriminate.
  - destruct rel'; discriminate.
  - intros H. injection H as ->. exact (loop_return_not_none _ _ _ E eq_refl).
Qed.

(** X5.  [run] returns [None] for every plan whose type is not the string
    "analytics", without looking at its steps, and never returns [None] for
    an analytics plan: there it returns a scalar, a list, a mapping, records
    or a group-by object, or it raises. *)
Theorem run_none_only_for_other_plans (self : AnalyticsEngine) (plan ty : json) :
  getitem plan "type" = Ok ty ->
  (ty <> JStr "analytics" -> run self plan = (Ok RNone, self))
  /\ (ty = JStr "analytics" -> fst (run self plan) <> Ok RNone).
Proof.
  intros Hty. unfold run, run_value. rewrite Hty. cbn [bind fst]. split.
  - intros Hne. rewrite (eq_str_false Hne). reflexivity.
  - intros ->. cbn [eq_str negb]. rewrite String.eqb_refl. cbn [negb].
    destruct (getitem plan "steps") as [sv|e|]; cbn [bind]; try discriminate.
    destruct (iterate sv) as [steps|e|]; cbn [bind]; try discriminate.
    apply run_steps_not_none.
Qed.

Lemma run_none_only_for_other_plans_witness :
  (JStr "explain" <> JStr "analytics" ->
   run sales_engine explain_plan = (Ok RNone, sales_engine))
  /\ (JStr "explain" = JStr "analytics" ->
      fst (run sales_engine explain_plan) <> Ok RNone).
Proof.
  apply (@run_none_only_for_other_plans sales_engine explain_plan (JStr "explain")).
  reflexivity.
Defined.

Lemma in_strs_cons_false (op : json) (s : string) (ss : list string) :
  in_strs op (s :: ss) = false -> eq_str op s = false /\ in_strs op ss = false.
Proof. unfold in_strs. simpl. apply orb_false_iff. Qed.

(** X6.  A step whose [op] is none of the ten operation names makes [run]
    raise "Unknown operation: op" as soon as the loop reaches it, whatever
    the relation is by then and whatever else the step holds; names are
    compared exactly, so "Sum" or "SORT" are unknown. *)
Theorem unknown_operation_raises (self : AnalyticsEngine) (pre : list json)
    (rel : relation) (stp op : json) (rest : list json) :
  loop self (Rows (df self)) pre = Ok (Next rel) ->
  getitem stp "op" = Ok op -> in_strs op operations = false ->
  run self (analytics_plan (pre ++ stp :: rest))
  = (Raise (ValueError ("Unknown operation: " ++ Json.str op)), self).
Proof.
  intros Hpre Hop Hun. rewrite run_analytics_plan. f_equal.
  rewrite run_steps_app with (rel' := rel) by exact Hpre.
  apply run_steps_raise.
  unfold operations in Hun. cbn [app] in Hun.
  apply in_strs_cons_false in Hun. destruct Hun as [E1 Hun].
  apply in_strs_cons_false in Hun. destruct Hun as [E2 Hun].
  assert (E3 : in_strs op aggregate_ops = false).
  { unfold aggregate_ops, in_strs in *. cbn [existsb app] in *.
    repeat (apply orb_false_iff in Hun; destruct Hun as [-> Hun]).
    reflexivity. }
  unfold aggregate_ops in Hun. cbn [app] in Hun.
  do 5 (apply in_strs_cons_false in Hun; destruct Hun as [_ Hun]).
  apply in_strs_cons_false in Hun. destruct Hun as [E4 Hun].
  apply in_strs_cons_false in Hun. destruct Hun as [E5 Hun].
  apply in_strs_cons_false in Hun. destruct Hun as [E6 _].
  unfold exec_step. rewrite Hop. cbn [bind]. rewrite E1, E2, E3, E4, E5, E6.
  reflexivity.
Qed.

Lemma unknown_operation_raises_witness :
  run sales_engine
      (analytics_plan ([groupby_region]
                       ++ step [("op", JStr "Sum"); ("metric", JStr "sales")]
                       :: [sort_desc]))
  = (Raise (ValueError "Unknown operation: Sum"), sales_engine).
Proof.
  apply (@unknown_operation_raises sales_engine [groupby_region]
           (Grouped sales_df "region")
           (step [("op", JStr "Sum"); ("metric", JStr "sales")])
           (JStr "Sum") [sort_desc]); reflexivity.
Defined.

Lemma filter_twice {A} (p : A -> bool) (l : list A) :
  filter p (filter p l) = filter p l.
Proof.
  rewrite filter_filter. apply filter_ext. intros x. destruct (p x); reflexivity.
Qed.

Lemma existsb_filter_false {A B} (p : B -> bool) (f : A -> B)
    (q : A -> bool) (l : list A) :
  existsb p (map f l) = false -> existsb p (map f (filter q l)) = false.
Proof.
  induction l as [|x l IH]; simpl; [reflexivity|].
  intros H. apply orb_false_iff in H. destruct H as [H1 H2].
  destruct (q x); simpl; [rewrite H1|]; apply IH; exact H2.
Qed.

Lemma forallb_filter_true {A B} (p : B -> bool) (f : A -> B)
    (q : A -> bool) (l : list A) :
  forallb p (map f l) = true -> forallb p (map f (filter q l)) = true.
Proof.
  induction l as [|x l IH]; simpl; [reflexivity|].
  intros H. apply andb_true_iff in H. destruct H as [H1 H2].
  destruct (q x); simpl; [rewrite H1|]; apply IH; exact H2.
Qed.

Lemma df_filter_eq_ok (dt : dtype) (d d' : DataFrame) (col val : string)
    (i : nat) :
  index_of col (columns d) = Some i ->
  df_filter_eq dt d col val = Ok d' ->
  filter_left_out dt val (map (cell_at i) (rows d)) = false
  /\ d' = mkDataFrame (columns d)
            (filter (fun r => filter_match dt val (cell_at i r)) (rows d)).
Proof.
  intros Hi H. unfold df_filter_eq in H. rewrite Hi in H.
  destruct (filter_left_out dt val (map (cell_at i) (rows d)));
    [discriminate H|].
  injection H as <-. split; reflexivity.
Qed.

Lemma df_filter_eq_defined (dt : dtype) (d : DataFrame) (col val : string)
    (i : nat) :
  index_of col (columns d) = Some i ->
  filter_left_out dt val (map (cell_at i) (rows d)) = false ->
  df_filter_eq dt d col val
  = Ok (mkDataFrame (columns d)
          (filter (fun r => filter_match dt val (cell_at i r)) (rows d))).
Proof.
  intros Hi H. unfold df_filter_eq. rewrite Hi, H. reflexivity.
Qed.

Lemma filter_left_out_selection (dt : dtype) (val : string) (i : nat)
    (q : list cell -> bool) (rs : list (list cell)) :
  filter_left_out dt val (map (cell_at i) rs) = false ->
  filter_left_out dt val (map (cell_at i) (filter q rs)) = false.
Proof.
  unfold filter_left_out. intros H. apply orb_false_iff in H.
  destruct H as [H1 H2]. apply orb_false_iff. split.
  - apply andb_false_iff in H1. apply andb_false_iff.
    destruct H1 as [H1|H1]; [left | right; exact H1].
    apply existsb_filter_false. exact H1.
  - destruct dt; try reflexivity.
    apply negb_false_iff in H2. apply negb_false_iff.
    apply forallb_filter_true. exact H2.
Qed.

Lemma exec_step_filter_rows (self : AnalyticsEngine) (d : DataFrame)
    (stp : json) (r : step_result) :
  getitem stp "op" = Ok (JStr "filter") ->
  exec_step self (Rows d) stp = Ok r ->
  exists c col v i,
    getitem stp "column" = Ok c /\ _col self c = Ok col
    /\ getitem stp "value" = Ok v /\ index_of col (columns d) = Some i
    /\ filter_left_out (source_dtype self col) (lower (Json.str v))
         (map (cell_at i) (rows d)) = false
    /\ r = Next (Rows (mkDataFrame (columns d)
                 (filter (fun row => filter_match (source_dtype self col)
                                       (lower (Json.str v)) (cell_at i row))
                         (rows d)))).
Proof.
  intros Hop H. unfold exec_step in H. rewrite Hop in H. cbn [bind] in H.
  change (eq_str (JStr "filter") "filter") with true in H. cbv iota in H.
  destruct (getitem stp "column") as [c|e|] eqn:Ec; cbn [bind] in H;
    try discriminate H.
  destruct (_col self c) as [col|e|] eqn:Ecol; cbn [bind] in H;
    try discriminate H.
  destruct (getitem stp "value") as [v|e|] eqn:Ev; cbn [bind] in H;
    try discriminate H.
  cbv zeta in H.
  destruct (df_filter_eq (source_dtype self col) d col (lower (Json.str v)))
    as [d'|e|] eqn:Ed; cbn [bind] in H; try discriminate H.
  injection H as <-.
  destruct (index_of col (columns d)) as [i|] eqn:Ei.
  - destruct (df_filter_eq_ok _ _ _ _ Ei Ed) as [Hout ->].
    exists c, col, v, i. repeat split; assumption.
  - unfold df_filter_eq in Ed. rewrite Ei in Ed. discriminate Ed.
Qed.

(** X7.  A filter step on a DataFrame keeps the columns and hands on a
    selection of the rows it was given, and it is idempotent: run again on
    its own result it changes nothing. *)
Theorem filter_step_is_idempotent (self : AnalyticsEngine) (d : DataFrame)
    (stp : json) (r : step_result) :
  getitem stp "op" = Ok (JStr "filter") ->
  exec_step self (Rows d) stp = Ok r ->
  exists d',
    r = Next (Rows d')
    /\ columns d' = columns d
    /\ incl (rows d') (rows d)
    /\ exec_step self (Rows d') stp = Ok (Next (Rows d')).
Proof.
  intros Hop H.
  destruct (exec_step_filter_rows _ _ _ Hop H)
    as (c & col & v & i & Hc & Hcol & Hv & Hi & Hout & ->).
  eexists. split; [reflexivity|]. split; [reflexivity|]. split.
  - intros row Hrow. apply filter_In in Hrow. apply Hrow.
  - unfold exec_step. rewrite Hop. cbn [bind].
    change (eq_str (JStr "filter") "filter") with true. cbv iota.
    rewrite Hc. cbn [bind]. rewrite Hcol. cbn [bind]. rewrite Hv. cbn [bind].
    cbv zeta.
    rewrite (@df_filter_eq_defined (source_dtype self col) _ col
               (lower (Json.str v)) i);
      [| exact Hi | apply filter_left_out_selection; exact Hout].
    cbn [bind columns rows]. rewrite filter_twice. reflexivity.
Qed.

Lemma filter_step_is_idempotent_witness :
  exists d',
    Next (Rows (mkDataFrame ["region"; "sales"]
                  [[Str "North"; Num 100]; [Str "North"; Num 20]]))
    = Next (Rows d')
    /\ columns d' = columns sales_df
    /\ incl (rows d') (rows sales_df)
    /\ exec_step sales_engine (Rows d')
         (step [("op", JStr "filter"); ("column", JStr "region");
                ("value", JStr "NORTH")])
       = Ok (Next (Rows d')).
Proof.
  apply (@filter_step_is_idempotent sales_engine sales_df
           (step [("op", JStr "filter"); ("column", JStr "region");
                  ("value", JStr "NORTH")])); reflexivity.
Defined.

Lemma lower_char_idempotent (c : ascii) :
  lower_char (lower_char c) = lower_char c.
Proof. destruct c as [[] [] [] [] [] [] [] []]; reflexivity. Qed.

Lemma lower_idempotent (s : string) : lower (lower s) = lower s.
Proof.
  induction s as [|c s IH]; simpl; [reflexivity|].
  rewrite lower_char_idempotent, IH. reflexivity.
Qed.



Lemma head_head {A} (n m : Z) (l : list A) :
  (0 <= n)%Z -> (0 <= m)%Z -> head m (head n l) = head (Z.min n m) l.
Proof.
  intros Hn Hm. unfold head.
  rewrite (proj2 (Z.leb_le 0 n) Hn), (proj2 (Z.leb_le 0 m) Hm).
  rewrite (proj2 (Z.leb_le 0 (Z.min n m))) by lia.
  rewrite firstn_firstn, Z2Nat.inj_min, Nat.min_comm. reflexivity.
Qed.

(** X9.  On a DataFrame or on a reduced Series two limits in a row, with
    counts that are not negative, are the single limit with the smaller
    count. *)
Theorem limits_compose (self : AnalyticsEngine) (rel : relation)
    (s1 s2 s3 : json) (n m : Z) :
  (forall d by_, rel <> Grouped d by_) ->
  getitem s1 "op" = Ok (JStr "limit") -> getitem s1 "value" = Ok (JNum n) ->
  getitem s2 "op" = Ok (JStr "limit") -> getitem s2 "value" = Ok (JNum m) ->
  getitem s3 "op" = Ok (JStr "limit") ->
  getitem s3 "value" = Ok (JNum (Z.min n m)) ->
  (0 <= n)%Z -> (0 <= m)%Z ->
  loop self rel [s1; s2] = loop self rel [s3].
Proof.
  intros Hrel Ho1 Hv1 Ho2 Hv2 Ho3 Hv3 Hn Hm.
  assert (E : forall stp k r,
            getitem stp "op" = Ok (JStr "limit") ->
            getitem stp "value" = Ok (JNum k) ->
            (forall d by_, r <> Grouped d by_) ->
            exec_step self r stp
            = Ok (Next match r with
                       | Rows d => Rows (set_rows d (head k (rows d)))
                       | Keyed name s => Keyed name (head k s)
                       | Grouped d by_ => r
                       end)).
  { intros stp k r Ho Hv Hr. unfold exec_step. rewrite Ho. cbn [bind].
    change (eq_str (JStr "limit") "filter") with false.
    change (eq_str (JStr "limit") "groupby") with false.
    change (in_strs (JStr "limit") aggregate_ops) with false.
    change (eq_str (JStr "limit") "list_unique") with false.
    change (eq_str (JStr "limit") "sort") with false.
    change (eq_str (JStr "limit") "limit") with true. cbv iota.
    rewrite Hv. cbn [bind].
    destruct r as [d|d b|name s]; try reflexivity.
    exfalso. apply (Hr d b). reflexivity. }
  cbn [loop]. rewrite (E s1 n rel Ho1 Hv1 Hrel), (E s3 _ rel Ho3 Hv3 Hrel).
  cbn [bind].
  destruct rel as [d|d b|name s].
  - rewrite (E s2 m _ Ho2 Hv2) by discriminate. cbn [bind].
    unfold set_rows. cbn [rows columns]. rewrite head_head by assumption.
    reflexivity.
  - exfalso. apply (Hrel d b). reflexivity.
  - rewrite (E s2 m _ Ho2 Hv2) by discriminate. cbn [bind].
    rewrite head_head by assumption. reflexivity.
Qed.

Lemma limits_compose_witness :
  loop sales_engine (Rows sales_df)
       [step [("op", JStr "limit"); ("value", JNum 2)]; limit_1]
  = loop sales_engine (Rows sales_df) [limit_1].
Proof.
  apply (@limits_compose sales_engine (Rows sales_df)
           (step [("op", JStr "limit"); ("value", JNum 2)]) limit_1 limit_1
           2 1); try reflexivity; try discriminate; lia.
Defined.

Lemma reduce_groups_keys (f : list cell -> res scalar) (d : DataFrame)
    (i j : nat) (keys : list cell) (s : entries) :
  reduce_groups f d i j keys = Ok s -> map fst s = keys.
Proof.
  revert s; induction keys as [|k keys IH]; intros s; simpl.
  - intros H. injection H as <-. reflexivity.
  - destruct (f (group_column d i j k)) as [x|e|]; cbn [bind]; try discriminate.
    destruct (reduce_groups f d i j keys) as [xs|e|]; cbn [bind];
      try discriminate.
    intros H. injection H as <-. simpl. f_equal. apply IH. reflexivity.
Qed.

Lemma group_keys_spec (d : DataFrame) (i : nat) :
  NoDup (group_keys d i)
  /\ StronglySorted (fun a b => cell_leb a b = true) (group_keys d i)
  /\ forall k, In k (group_keys d i)
               <-> k <> Null /\ In k (map (cell_at i) (rows d)).
Proof.
  unfold group_keys.
  set (u := unique (dropna (map (cell_at i) (rows d)))).
  pose proof (isort_perm cell_leb u) as Hperm.
  split; [|split].
  - apply (Permutation_NoDup Hperm). apply NoDup_unique.
  - apply isort_sorted; [apply cell_leb_total | apply cell_leb_trans].
  - intros k. split.
    + intros H. apply (Permutation_in k (Permutation_sym Hperm)) in H.
      unfold u in H. apply In_unique, In_dropna in H. tauto.
    + intros [H1 H2]. apply (Permutation_in k Hperm).
      unfold u. apply In_unique, In_dropna. tauto.
Qed.

Lemma exec_step_aggregate_grouped (self : AnalyticsEngine) (d : DataFrame)
    (by_ : string) (stp : json) (op : string) (r : step_result) :
  getitem stp "op" = Ok (JStr op) -> In op aggregate_ops ->
  exec_step self (Grouped d by_) stp = Ok r ->
  exists f m col s,
    reduce_group (JStr op) = Some f /\ getitem stp "metric" = Ok m
    /\ _col self m = Ok col
    /\ groupby_reduce (f (source_dtype self col)) d by_ col = Ok s
    /\ r = Next (Keyed by_ s).
Proof.
  intros Hop Hin H.
  destruct (aggregate_op_dispatch Hin) as (E1 & E2 & E3).
  unfold exec_step in H. rewrite Hop in H. cbn [bind] in H.
  rewrite E1, E2, E3 in H.
  destruct (getitem stp "metric") as [m|e|] eqn:Em; cbn [bind] in H;
    try discriminate H.
  destruct (_col self m) as [col|e|] eqn:Ecol; cbn [bind] in H;
    try discriminate H.
  assert (Hf : exists f, reduce_group (JStr op) = Some f).
  { unfold aggregate_ops in Hin. simpl in Hin.
    destruct Hin as [<-|[<-|[<-|[<-|[<-|[]]]]]]; eexists; reflexivity. }
  destruct Hf as [f Hf]. rewrite Hf in H.
  destruct (groupby_reduce (f (source_dtype self col)) d by_ col)
    as [s|e|] eqn:Es; cbn [bind] in H; try discriminate H.
  injection H as <-. exists f, m, col, s. repeat split; assumption.
Qed.

(** X10.  An aggregate after a group-by yields one entry for every distinct
    non-missing value of the grouping column and no other entry; the entries
    come in ascending order of their keys, whatever the order of the rows,
    and rows whose key is missing belong to no group. *)
Theorem grouped_aggregate_has_one_entry_per_key (self : AnalyticsEngine)
    (d : DataFrame) (by_ : string) (i : nat) (stp : json) (op : string)
    (r : step_result) :
  getitem stp "op" = Ok (JStr op) -> In op aggregate_ops ->
  index_of by_ (columns d) = Some i ->
  exec_step self (Grouped d by_) stp = Ok r ->
  exists s,
    r = Next (Keyed by_ s)
    /\ NoDup (map fst s)
    /\ StronglySorted (fun a b => cell_leb a b = true) (map fst s)
    /\ forall k, In k (map fst s)
                 <-> k <> Null /\ In k (map (cell_at i) (rows d)).
Proof.
  intros Hop Hin Hi H.
  destruct (exec_step_aggregate_grouped _ _ _ _ Hop Hin H)
    as (f & m & col & s & Hf & Hm & Hcol & Hs & ->).
  exists s. split; [reflexivity|].
  unfold groupby_reduce in Hs. rewrite Hi in Hs.
  destruct (index_of col (columns d)) as [j|]; [|discriminate Hs].
  rewrite (reduce_groups_keys _ _ _ _ _ Hs). apply group_keys_spec.
Qed.

Lemma grouped_aggregate_has_one_entry_per_key_witness :
  exists s,
    Next (Keyed "region" [(Str "North", Int 120); (Str "South", Int 150)])
    = Next (Keyed "region" s)
    /\ NoDup (map fst s)
    /\ StronglySorted (fun a b => cell_leb a b = true) (map fst s)
    /\ forall k, In k (map fst s)
                 <-> k <> Null /\ In k (map (cell_at 0) (rows sales_df)).
Proof.
  apply (@grouped_aggregate_has_one_entry_per_key sales_engine sales_df
           "region" 0 sum_sales "sum"); try reflexivity.
  simpl; tauto.
Defined.
















End EngineSteps.

(* ================================================================= *)
(** ** More on sorting steps *)

Section SortSteps.

Lemma sort_values_ascending {A} (isna : A -> bool) (leb : A -> A -> bool)
    (l : list A) :
  (forall x y, leb x y = true \/ leb y x = true) ->
  (forall x y z, leb x y = true -> leb y z = true -> leb x z = true) ->
  exists present missing,
    sort_values isna leb true l = present ++ missing
    /\ Permutation l (present ++ missing)
    /\ StronglySorted (fun x y => leb x y = true) present
    /\ (forall x, In x present -> isna x = false)
    /\ (forall x, In x missing -> isna x = true).
Proof.
  intros Htot Htrans. unfold sort_values.
  set (present := filter (fun x => negb (isna x)) l).
  set (missing := filter isna l).
  exists (isort leb present), missing.
  split; [reflexivity|]. split; [|split; [|split]].
  - rewrite (filter_partition_perm isna l). fold present. fold missing.
    apply Permutation_app; [apply isort_perm | reflexivity].
  - apply isort_sorted; assumption.
  - intros x Hx.
    apply (Permutation_in x (Permutation_sym (isort_perm leb present))) in Hx.
    unfold present in Hx. apply filter_In in Hx.
    destruct Hx as [_ Hx]. destruct (isna x); [discriminate|reflexivity].
  - intros x Hx. unfold missing in Hx. apply filter_In in Hx. tauto.
Qed.

Lemma series_sort_values_ascending (s : entries) :
  exists present missing,
    series_sort_values true s = present ++ missing
    /\ Permutation s (present ++ missing)
    /\ ascending present
    /\ (forall e, In e present -> snd e <> NaN)
    /\ (forall e, In e missing -> snd e = NaN).
Proof.
  destruct (sort_values_ascending
              (fun e : cell * scalar => scalar_isna (snd e))
              (fun e1 e2 => scalar_leb (snd e1) (snd e2)) s)
    as (present & missing & Heq & Hperm & Hsorted & Hp & Hm).
  - intros x y. unfold scalar_leb. rewrite !Z.leb_le. lia.
  - intros x y z. unfold scalar_leb. rewrite !Z.leb_le. lia.
  - exists present, missing. split; [exact Heq|]. split; [exact Hperm|].
    split; [|split].
    + unfold ascending. clear -Hsorted.
      induction Hsorted as [|e l Hl IH He]; constructor; [exact IH|].
      eapply Forall_impl; [|exact He]. intros e' H.
      unfold scalar_leb in H. apply Z.leb_le in H. exact H.
    + intros e He. specialize (Hp e He). destruct (snd e); simpl in Hp;
        congruence.
    + intros e He. specialize (Hm e He). destruct (snd e); simpl in Hm;
        congruence.
Qed.

Lemma rows_sort_values_ascending (i : nat) (rs : list (list cell)) :
  exists present missing,
    sort_values (fun r => is_null (cell_at i r))
                (fun r1 r2 => cell_leb (cell_at i r1) (cell_at i r2)) true rs
    = present ++ missing
    /\ Permutation rs (present ++ missing)
    /\ rows_ascending i present
    /\ (forall r, In r present -> cell_at i r <> Null)
    /\ (forall r, In r missing -> cell_at i r = Null).
Proof.
  destruct (sort_values_ascending
              (fun r : list cell => is_null (cell_at i r))
              (fun r1 r2 => cell_leb (cell_at i r1) (cell_at i r2)) rs)
    as (present & missing & Heq & Hperm & Hsorted & Hp & Hm).
  - intros x y. apply cell_leb_total.
  - intros x y z. apply cell_leb_trans.
  - exists present, missing. split; [exact Heq|]. split; [exact Hperm|].
    split; [exact Hsorted|]. split.
    + intros r Hr. specialize (Hp r Hr). destruct (cell_at i r);
        simpl in Hp; congruence.
    + intros r Hr. specialize (Hm r Hr). destruct (cell_at i r);
        simpl in Hm; congruence.
Qed.

(** X13.  A sort step with [order] "asc" succeeds on a reduced Series and
    leaves its entries rearranged from the least to the greatest value,
    missing values last; on a DataFrame whose [by] column exists and does not
    mix numbers with strings it leaves the rows rearranged in the same way by
    that column.  Nothing is added or lost. *)
Theorem sort_asc_is_ascending (self : AnalyticsEngine) (rel : relation)
    (stp : json) :
  getitem stp "op" = Ok (JStr "sort") ->
  getitem stp "order" = Ok (JStr "asc") ->
  (forall name s, rel = Keyed name s ->
     exists present missing,
       exec_step self rel stp = Ok (Next (Keyed name (present ++ missing)))
       /\ Permutation s (present ++ missing)
       /\ ascending present
       /\ (forall e, In e present -> snd e <> NaN)
       /\ (forall e, In e missing -> snd e = NaN))
  /\ (forall d b col i, rel = Rows d ->
       getitem stp "by" = Ok b -> _col self b = Ok col ->
       index_of col (columns d) = Some i ->
       existsb is_num (map (cell_at i) (rows d))
       && existsb is_str (map (cell_at i) (rows d)) = false ->
       exists present missing,
         exec_step self rel stp
         = Ok (Next (Rows (mkDataFrame (columns d) (present ++ missing))))
         /\ Permutation (rows d) (present ++ missing)
         /\ rows_ascending i present
         /\ (forall r, In r present -> cell_at i r <> Null)
         /\ (forall r, In r missing -> cell_at i r = Null)).
Proof.
  intros Hop Ho. split.
  - intros name s ->.
    destruct (series_sort_values_ascending s)
      as (present & missing & Heq & Hrest).
    exists present, missing. split; [|exact Hrest].
    unfold exec_step. rewrite Hop. cbn [bind].
    change (eq_str (JStr "sort") "filter") with false.
    change (eq_str (JStr "sort") "groupby") with false.
    change (in_strs (JStr "sort") aggregate_ops) with false.
    change (eq_str (JStr "sort") "list_unique") with false.
    change (eq_str (JStr "sort") "sort") with true. cbv iota.
    rewrite Ho. cbn [bind].
    change (eq_str (JStr "asc") "asc") with true. cbv zeta.
    rewrite Heq. reflexivity.
  - intros d b col i -> Hb Hcol Hi Hmix.
    destruct (rows_sort_values_ascending i (rows d))
      as (present & missing & Heq & Hrest).
    exists present, missing. split; [|exact Hrest].
    unfold exec_step. rewrite Hop. cbn [bind].
    change (eq_str (JStr "sort") "filter") with false.
    change (eq_str (JStr "sort") "groupby") with false.
    change (in_strs (JStr "sort") aggregate_ops) with false.
    change (eq_str (JStr "sort") "list_unique") with false.
    change (eq_str (JStr "sort") "sort") with true. cbv iota.
    rewrite Ho. cbn [bind].
    change (eq_str (JStr "asc") "asc") with true. cbv zeta.
    rewrite Hb. cbn [bind]. rewrite Hcol. cbn [bind].
    unfold df_sort_values. rewrite Hi, Hmix. rewrite Heq. reflexivity.
Qed.

Lemma sort_asc_is_ascending_witness :
  exists present missing,
    exec_step sales_engine (Rows sales_df)
      (step [("op", JStr "sort"); ("order", JStr "asc"); ("by", JStr "sales")])
    = Ok (Next (Rows (mkDataFrame (columns sales_df) (present ++ missing))))
    /\ Permutation (rows sales_df) (present ++ missing)
    /\ rows_ascending 1 present
    /\ (forall r, In r present -> cell_at 1 r <> Null)
    /\ (forall r, In r missing -> cell_at 1 r = Null).
Proof.
  destruct (@sort_asc_is_ascending sales_engine (Rows sales_df)
              (step [("op", JStr "sort"); ("order", JStr "asc");
                     ("by", JStr "sales")]) eq_refl eq_refl) as [_ H].
  exact (H sales_df (JStr "sales") "sales" 1%nat
           eq_refl eq_refl eq_refl eq_refl eq_refl).
Defined.

(** X14.  Sorting a reduced Series in descending order and keeping one
    entry yields the entry of a greatest value: when the Series has at least
    one entry and no missing value, the steps sort (any order but "asc") and
    limit 1 leave exactly one entry, taken from the Series, whose value no
    other entry exceeds. *)
Theorem top_entry_is_a_maximum (self : AnalyticsEngine) (name : string)
    (s : entries) (ssort slimit o : json) :
  s <> [] -> (forall e, In e s -> snd e <> NaN) ->
  getitem ssort "op" = Ok (JStr "sort") -> getitem ssort "order" = Ok o ->
  o <> JStr "asc" ->
  getitem slimit "op" = Ok (JStr "limit") ->
  getitem slimit "value" = Ok (JNum 1) ->
  exists top,
    loop self (Keyed name s) [ssort; slimit] = Ok (Next (Keyed name [top]))
    /\ In top s
    /\ forall e, In e s ->
                 (hundredths_of (snd e) <= hundredths_of (snd top))%Z.
Proof.
  intros Hne Hnan Hop Ho Hasc Hlop Hlv.
  destruct (series_sort_values_descending s)
    as (present & missing & Heq & Hperm & Hdesc & Hp & Hm).
  assert (Hmissing : missing = []).
  { destruct missing as [|e missing]; [reflexivity|]. exfalso.
    apply (Hnan e).
    - apply (Permutation_in e (Permutation_sym Hperm)).
      apply in_or_app. right. left. reflexivity.
    - apply Hm. left. reflexivity. }
  subst missing. rewrite app_nil_r in *.
  destruct present as [|top rest].
  { apply Permutation_sym, Permutation_nil in Hperm. contradiction. }
  exists top. split; [|split].
  - cbn [loop]. unfold exec_step at 1. rewrite Hop. simpl.
    rewrite Ho. simpl. rewrite (eq_str_false Hasc), Heq. cbn [bind].
    unfold exec_step. rewrite Hlop. cbn [bind].
    change (eq_str (JStr "limit") "filter") with false.
    change (eq_str (JStr "limit") "groupby") with false.
    change (in_strs (JStr "limit") aggregate_ops) with false.
    change (eq_str (JStr "limit") "list_unique") with false.
    change (eq_str (JStr "limit") "sort") with false.
    change (eq_str (JStr "limit") "limit") with true. cbv iota.
    rewrite Hlv. reflexivity.
  - apply (Permutation_in top (Permutation_sym Hperm)). left. reflexivity.
  - intros e He. apply (Permutation_in e Hperm) in He.
    unfold descending in Hdesc. apply StronglySorted_inv in Hdesc.
    destruct Hdesc as [_ Hall]. destruct He as [<-|He]; [lia|].
    rewrite Forall_forall in Hall. apply Hall. exact He.
Qed.

Lemma top_entry_is_a_maximum_witness :
  exists top,
    loop sales_engine
         (Keyed "region" [(Str "North", Int 120); (Str "South", Int 150)])
         [sort_desc; limit_1]
    = Ok (Next (Keyed "region" [top]))
    /\ In top [(Str "North", Int 120); (Str "South", Int 150)]
    /\ forall e, In e [(Str "North", Int 120); (Str "South", Int 150)] ->
                 (hundredths_of (snd e) <= hundredths_of (snd top))%Z.
Proof.
  apply (@top_entry_is_a_maximum sales_engine "region"
           [(Str "North", Int 120); (Str "South", Int 150)]
           sort_desc limit_1 (JStr "desc")); try reflexivity; try discriminate.
  intros e [<-|[<-|[]]]; discriminate.
Defined.

End SortSteps.

(* ================================================================= *)
(** ** The vector store within its size *)

Section NearestNeighbours.








End NearestNeighbours.

(* ================================================================= *)
(** ** Loading the uploaded files *)

Section Loading.











End Loading.

(* ================================================================= *)
(** ** The state of the service *)

Section ServiceState.







(** X18.  When files are present, the value [initialize_rag_system] returns
    tells whether the state is initialized afterwards: [True] is returned
    with an initialized state holding a dataset, [False] with a state marked
    uninitialized.  (Without files it returns [False] and leaves the state as
    it is, initialized or not.) *)
Theorem initialize_reports_readiness (w : World) (force_rebuild : bool)
    (st : RAGState) :
  excel_files w <> [] ->
  is_initialized (snd (initialize_rag_system w force_rebuild st))
  = fst (initialize_rag_system w force_rebuild st).
Proof.
  intros Hfiles. unfold initialize_rag_system.
  destruct (excel_files w) as [|f fs]; [contradiction|].
  destruct (is_initialized st) eqn:Ei; cbn [andb].
  - destruct (negb force_rebuild
              && Nat.eqb (List.length (f :: fs)) (file_count st));
      [exact Ei|].
    destruct (load_excel_files (sheets w) (f :: fs)) as [d|e|];
      [destruct (planner_prompt w) as [p|e|]|..]; reflexivity.
  - destruct (load_excel_files (sheets w) (f :: fs)) as [d|e|];
      [destruct (planner_prompt w) as [p|e|]|..]; reflexivity.
Qed.

Lemma initialize_reports_readiness_witness :
  is_initialized (snd (initialize_rag_system one_file_world false initial_state))
  = fst (initialize_rag_system one_file_world false initial_state).
Proof.
  apply (@initialize_reports_readiness one_file_world false initial_state).
  discriminate.
Defined.

(** X19.  After a call of [initialize_rag_system] that returned [True], an
    unforced call changes nothing and returns [True] as long as the number of
    files is the same, whatever the files now hold: the same call again is a
    no-operation, and so is a call after one file has been replaced by
    another; only [force_rebuild] makes the service read the files again. *)
Theorem unforced_initialize_keeps_a_ready_state (w w' : World)
    (force_rebuild : bool) (st : RAGState) :
  fst (initialize_rag_system w force_rebuild st) = true ->
  List.length (excel_files w') = List.length (excel_files w) ->
  initialize_rag_system w' false
    (snd (initialize_rag_system w force_rebuild st))
  = (true, snd (initialize_rag_system w force_rebuild st)).
Proof.
  intros Hok Hlen.
  assert (Hready :
    is_initialized (snd (initialize_rag_system w force_rebuild st)) = true
    /\ file_count (snd (initialize_rag_system w force_rebuild st))
       = List.length (excel_files w)
    /\ excel_files w <> []).
  { revert Hok. unfold initialize_rag_system.
    destruct (excel_files w) as [|f fs]; [discriminate|].
    destruct (is_initialized st && negb force_rebuild
              && Nat.eqb (List.length (f :: fs)) (file_count st)) eqn:E.
    - intros _. apply andb_true_iff in E. destruct E as [E1 E2].
      apply andb_true_iff in E1. destruct E1 as [E1 _].
      apply Nat.eqb_eq in E2. cbn [snd].
      split; [exact E1|]. split; [symmetry; exact E2 | discriminate].
    - destruct (load_excel_files (sheets w) (f :: fs)) as [d|e|];
        try discriminate.
      destruct (planner_prompt w) as [p|e|]; try discriminate.
      intros _. cbn. split; [reflexivity|]. split; [reflexivity|discriminate]. }
  destruct Hready as (Hinit & Hcount & Hfiles).
  unfold initialize_rag_system at 1.
  destruct (excel_files w') as [|f' fs'] eqn:E'.
  - destruct (excel_files w); [contradiction|discriminate Hlen].
  - rewrite Hinit, Hcount, Hlen, Nat.eqb_refl. reflexivity.
Qed.

Lemma unforced_initialize_keeps_a_ready_state_witness :
  initialize_rag_system one_file_world false ready_state = (true, ready_state).
Proof.
  apply (@unforced_initialize_keeps_a_ready_state one_file_world one_file_world
           false initial_state); reflexivity.
Defined.

(** X20.  A forced rebuild does not depend on the state it starts from:
    whether it succeeds is decided by the world alone, and when it succeeds
    every part of the state is new, so two rebuilds in the same world end in
    the same state whatever the states before them. *)
Theorem rebuild_forgets_the_previous_state (w : World) (st1 st2 : RAGState) :
  fst (rebuild_rag_system w st1) = fst (rebuild_rag_system w st2)
  /\ (fst (rebuild_rag_system w st1) = true ->
      snd (rebuild_rag_system w st1) = snd (rebuild_rag_system w st2)).
Proof.
  unfold rebuild_rag_system, initialize_rag_system.
  destruct (excel_files w) as [|f fs]; [split; [reflexivity|discriminate]|].
  cbn [negb]. rewrite !andb_false_r. cbn [andb].
  destruct (load_excel_files (sheets w) (f :: fs)) as [d|e|];
    [|split; [reflexivity|discriminate]..].
  destruct (planner_prompt w) as [p|e|];
    [|split; [reflexivity|discriminate]..].
  split; reflexivity.
Qed.

Lemma rebuild_forgets_the_previous_state_witness :
  snd (rebuild_rag_system one_file_world initial_state)
  = snd (rebuild_rag_system one_file_world ready_state).
Proof.
  apply (@rebuild_forgets_the_previous_state one_file_world initial_state
           ready_state).
  reflexivity.
Defined.

End ServiceState.

(* ================================================================= *)
(** ** What [clean] leaves of a response *)

Section CleanedResponse.

Lemma prefix_cons_same (a : ascii) (p s : string) :
  prefix (String a p) (String a s) = prefix p s.
Proof. simpl. destruct (ascii_dec a a); [reflexivity|contradiction]. Qed.

Lemma prefix_cons_diff (a c : ascii) (p s : string) :
  a <> c -> prefix (String a p) (String c s) = false.
Proof. intros H. simpl. destruct (ascii_dec a c); [contradiction|reflexivity]. Qed.

Lemma prefix_nil (s : string) : prefix "" s = true.
Proof. destruct s; reflexivity. Qed.

Lemma prefix_shorter (p q s : string) :
  prefix (p ++ q) s = true -> prefix p s = true.
Proof.
  revert s; induction p as [|a p IH]; intros s H; [apply prefix_nil|].
  destruct s as [|c s]; [discriminate H|]. simpl in *.
  destruct (ascii_dec a c); [apply IH; exact H | discriminate H].
Qed.

Lemma contains_cons (p : string) (c : ascii) (s : string) :
  contains p (String c s) = prefix p (String c s) || contains p s.
Proof. reflexivity. Qed.

Lemma contains_app_right (p a b : string) :
  contains p b = true -> contains p (a ++ b) = true.
Proof.
  intros H. induction a as [|x a IH]; [exact H|].
  change (String x a ++ b)%string with (String x (a ++ b)).
  rewrite contains_cons, IH. apply orb_true_r.
Qed.

Lemma contains_app_left (p a b : string) :
  contains p a = true -> contains p (a ++ b) = true.
Proof.
  induction a as [|x a IH]; intros H.
  - simpl in H. rewrite orb_false_r in H.
    destruct b as [|y b]; [simpl; rewrite H; reflexivity|].
    pose proof (@prefix_app p "" (String y b) H) as H'.
    change ("" ++ String y b)%string with (String y b) in *.
    rewrite contains_cons, H'. reflexivity.
  - change (String x a ++ b)%string with (String x (a ++ b)).
    rewrite contains_cons in *. apply orb_true_iff in H.
    destruct H as [H|H].
    + pose proof (@prefix_app p (String x a) b H) as H'.
      change (String x a ++ b)%string with (String x (a ++ b)) in H'.
      rewrite H'. reflexivity.
    + rewrite (IH H). apply orb_true_r.
Qed.

Lemma contains_strip (p s : string) :
  contains p s = false -> contains p (strip s) = false.
Proof.
  intros H. destruct (contains p (strip s)) eqn:E; [|reflexivity].
  destruct (strip_split isspace s) as (lead & trail & _ & _ & Hs).
  fold (strip s) in Hs. rewrite Hs in H.
  rewrite (@contains_app_right p lead (strip s ++ trail)) in H;
    [discriminate H|].
  apply contains_app_left. exact E.
Qed.

Lemma contains_longer (p q s : string) :
  contains p s = false -> contains (p ++ q) s = false.
Proof.
  induction s as [|c s IH]; cbn [contains]; intros H;
    apply orb_false_iff in H; destruct H as [H1 H2].
  - rewrite orb_false_r.
    destruct (prefix (p ++ q) "") eqn:E; [|reflexivity].
    apply prefix_shorter in E. congruence.
  - rewrite (IH H2), orb_false_r.
    destruct (prefix (p ++ q) (String c s)) eqn:E; [|reflexivity].
    apply prefix_shorter in E. congruence.
Qed.

Lemma replace_absent (p s : string) :
  p <> "" -> contains p s = false -> replace p "" s = s.
Proof.
  intros Hp. induction s as [|c s IH]; intros H; [reflexivity|].
  rewrite contains_cons in H. apply orb_false_iff in H. destruct H as [H1 H2].
  rewrite replace_cons, H1, (IH H2). reflexivity.
Qed.

Lemma replace_fence_other (c : ascii) (s : string) :
  "`"%char <> c ->
  replace fence "" (String c s) = String c (replace fence "" s).
Proof.
  intros H. rewrite replace_cons. unfold fence at 1.
  rewrite prefix_cons_diff by exact H. reflexivity.
Qed.

Lemma replace_fence_one (s : string) :
  prefix "`" (replace fence "" s) = true -> prefix "`" s = true.
Proof.
  destruct s as [|c s]; [discriminate|].
  destruct (ascii_dec "`"%char c) as [<-|Hne].
  - intros _. rewrite prefix_cons_same. apply prefix_nil.
  - rewrite replace_fence_other by exact Hne.
    rewrite prefix_cons_diff by exact Hne. discriminate.
Qed.

Lemma replace_fence_two (s : string) :
  prefix "``" (replace fence "" s) = true -> prefix "``" s = true.
Proof.
  destruct s as [|c s]; [discriminate|].
  destruct (ascii_dec "`"%char c) as [<-|Hne].
  - rewrite replace_cons. rewrite !prefix_cons_same.
    destruct (prefix fence (String "`"%char s)) eqn:E.
    + intros _. unfold fence in E. rewrite prefix_cons_same in E.
      apply (@prefix_shorter "`" "`" s). exact E.
    + rewrite prefix_cons_same. apply replace_fence_one.
  - rewrite replace_fence_other by exact Hne.
    rewrite prefix_cons_diff by exact Hne. discriminate.
Qed.

Lemma replace_fence_leaves_none (n : nat) (s : string) :
  (String.length s <= n)%nat -> contains fence (replace fence "" s) = false.
Proof.
  revert s; induction n as [|n IH]; intros s Hn.
  - destruct s; [reflexivity | simpl in Hn; lia].
  - destruct s as [|c s]; [reflexivity|]. simpl in Hn.
    rewrite replace_cons.
    destruct (prefix fence (String c s)) eqn:E.
    + apply IH. pose proof (drop_length (String.length fence - 1) s). lia.
    + rewrite contains_cons, (IH s) by lia. rewrite orb_false_r.
      destruct (ascii_dec "`"%char c) as [<-|Hne].
      * unfold fence at 1. rewrite prefix_cons_same.
        unfold fence in E. rewrite prefix_cons_same in E.
        destruct (prefix "``" (replace fence "" s)) eqn:E2; [|reflexivity].
        apply replace_fence_two in E2. congruence.
      * unfold fence. apply prefix_cons_diff. exact Hne.
Qed.

Lemma clean_no_fence (response : string) :
  contains fence (clean response) = false.
Proof.
  unfold clean. apply contains_strip.
  apply (@replace_fence_leaves_none
           (String.length (replace fence_json "" (strip response)))).
  lia.
Qed.

(** X21.  No fence marker survives [clean]: whatever the response, the text
    handed to [json.loads] contains no run of three backquotes (so neither of
    the two markers), and cleaning it again changes nothing. *)
Theorem clean_removes_every_fence (response : string) :
  contains fence (clean response) = false
  /\ contains fence_json (clean response) = false
  /\ clean (clean response) = clean response.
Proof.
  pose proof (clean_no_fence response) as H.
  assert (Hj : contains fence_json (clean response) = false)
    by (apply (@contains_longer fence "json"); exact H).
  split; [exact H|]. split; [exact Hj|].
  rewrite clean_without_first_strip.
  rewrite (@replace_absent fence_json (clean response) fence_json_not_empty Hj).
  rewrite (@replace_absent fence (clean response) fence_not_empty H).
  unfold clean, strip. apply strip_idempotent.
Qed.

End CleanedResponse.

(* ================================================================= *)
(** ** Answering a question *)

Section Queries.

Lemma lower_app (a b : string) :
  lower (a ++ b) = (lower a ++ lower b)%string.
Proof. induction a as [|c a IH]; simpl; [reflexivity|]. rewrite IH. reflexivity. Qed.

Lemma isspace_lower_char (c : ascii) : isspace (lower_char c) = isspace c.
Proof. destruct c as [[] [] [] [] [] [] [] []]; reflexivity. Qed.

Lemma all_by_isspace_lower (w : string) :
  all_by isspace (lower w) = all_by isspace w.
Proof.
  induction w as [|c w IH]; simpl; [reflexivity|].
  rewrite isspace_lower_char, IH. reflexivity.
Qed.

(** X22.  [is_followup] looks at the question without its case and without
    the white space around it: white space before and after a question, and
    putting the question in lower case, never change the answer. *)
Theorem is_followup_ignores_case_and_margins (lead question trail : string) :
  all_by isspace lead = true -> all_by isspace trail = true ->
  is_followup (lead ++ question ++ trail) = is_followup question
  /\ is_followup (lower question) = is_followup question.
Proof.
  intros Hl Ht. unfold is_followup. cbv zeta. split.
  - rewrite !lower_app. unfold strip.
    rewrite strip_app by (rewrite all_by_isspace_lower; assumption).
    reflexivity.
  - rewrite lower_idempotent. reflexivity.
Qed.

Lemma is_followup_ignores_case_and_margins_witness :
  is_followup ("  " ++ "Tell me MORE" ++ nl) = is_followup "Tell me MORE"
  /\ is_followup (lower "Tell me MORE") = is_followup "Tell me MORE".
Proof.
  apply (@is_followup_ignores_case_and_margins "  " "Tell me MORE" nl);
    reflexivity.
Defined.

Lemma run_analytics_not_none (self : AnalyticsEngine) (plan ty : json) :
  getitem plan "type" = Ok ty -> eq_str ty "analytics" = true ->
  fst (run self plan) <> Ok RNone.
Proof.
  intros Hty Ha. unfold run, run_value. rewrite Hty. cbn [bind fst].
  rewrite Ha. cbn [negb].
  destruct (getitem plan "steps") as [sv|e|]; cbn [bind]; try discriminate.
  destruct (iterate sv) as [steps|e|]; cbn [bind]; try discriminate.
  apply run_steps_not_none.
Qed.

Lemma fixed_replies_differ :
  retrieval_unavailable_message <> no_match_message
  /\ cannot_process_message <> no_match_message
  /\ error_message <> no_match_message
  /\ no_data_message <> no_match_message.
Proof. repeat split; intros H; vm_compute in H; discriminate H. Qed.

Lemma answer_not_no_match (generate : string -> res string)
    (json_loads : string -> option json) (arrow : string)
    (show_result : result -> string) (show_context : list string -> string)
    (w : World) (st : RAGState) (user_message : string) :
  (forall prompt, generate prompt <> Ok no_match_message) ->
  answer generate json_loads arrow show_result show_context w st user_message
  <> Ok no_match_message.
Proof.
  intros Hgen. destruct fixed_replies_differ as (Hr & Hc & _ & _).
  unfold answer. destruct (is_followup user_message); [apply Hgen|].
  destruct (match st_planner st with
            | Some planner => plan generate json_loads arrow planner user_message
            | None => Raise AttributeError
            end) as [p|e|]; cbn [bind]; try discriminate.
  destruct (getitem p "type") as [ty|e|] eqn:Ety; cbn [bind]; try discriminate.
  destruct (eq_str ty "explain").
  - destruct (st_retriever st) as [retriever|]; [|congruence].
    destruct (get_context (embed w) retriever user_message) as [context|e|];
      cbn [bind]; try discriminate. apply Hgen.
  - destruct (eq_str ty "analytics") eqn:Ea; [|congruence].
    destruct (st_engine st) as [engine|]; cbn [bind]; [|discriminate].
    pose proof (@run_analytics_not_none engine p ty Ety Ea) as Hrun.
    destruct (fst (run engine p)) as [r|e|]; cbn [bind]; try discriminate.
    destruct r; try apply Hgen. congruence.
Qed.

(** X23.  The reply "I couldn't find any data matching your question" is
    never produced by the service itself: the engine is only run on plans of
    type "analytics", for which it never returns [None], so the test for
    [None] in [get_rag_response] cannot succeed.  Unless the language model
    itself answers with that sentence, it is not the reply. *)
Theorem no_match_reply_is_never_given (generate : string -> res string)
    (json_loads : string -> option json) (arrow : string)
    (show_result : result -> string) (show_context : list string -> string)
    (w : World) (st : RAGState) (user_message : string) :
  (forall prompt, generate prompt <> Ok no_match_message) ->
  fst (get_rag_response generate json_loads arrow show_result show_context
         w st user_message)
  <> Ok no_match_message.
Proof.
  intros Hgen. destruct fixed_replies_differ as (_ & _ & He & Hd).
  assert (Hcatch : forall st',
    catch (answer generate json_loads arrow show_result show_context
             w st' user_message) <> Ok no_match_message).
  { intros st'.
    pose proof (@answer_not_no_match generate json_loads arrow show_result
                  show_context w st' user_message Hgen) as Ha.
    destruct (answer generate json_loads arrow show_result show_context
                w st' user_message) as [s|e|]; cbn [catch];
      [exact Ha | congruence | discriminate]. }
  unfold get_rag_response. destruct (is_initialized st); [apply Hcatch|].
  destruct (initialize_rag_system w false st) as [success st'].
  destruct success; cbn [fst]; [apply Hcatch | congruence].
Qed.

Lemma no_match_reply_is_never_given_witness :
  fst (get_rag_response (fun _ => Ok "Total sales are 270.") (fun _ => None)
         " -> " (fun _ => "270") (fun _ => "") one_file_world ready_state
         "What are the total sales?")
  <> Ok no_match_message.
Proof.
  apply (@no_match_reply_is_never_given (fun _ => Ok "Total sales are 270.")
           (fun _ => None) " -> " (fun _ => "270") (fun _ => "")
           one_file_world ready_state "What are the total sales?").
  intros prompt H. vm_compute in H. discriminate H.
Defined.

Lemma initialize_true_ready (w : World) (force_rebuild : bool) (st : RAGState) :
  fst (initialize_rag_system w force_rebuild st) = true ->
  is_initialized (snd (initialize_rag_system w force_rebuild st)) = true.
Proof.
  unfold initialize_rag_system.
  destruct (excel_files w) as [|f fs]; [discriminate|].
  destruct (is_initialized st && negb force_rebuild
            && Nat.eqb (List.length (f :: fs)) (file_count st)) eqn:E.
  - intros _. apply andb_true_iff in E. destruct E as [E _].
    apply andb_true_iff in E. destruct E as [E _]. exact E.
  - destruct (load_excel_files (sheets w) (f :: fs)) as [d|e|];
      try discriminate.
    destruct (planner_prompt w) as [p|e|]; try discriminate. reflexivity.
Qed.

(** X24.  A question is only answered over an initialized state: when the
    state is not initialized after [get_rag_response] (there was no dataset
    and the initialization it tried did not succeed, for want of files or
    because loading failed), the reply is the request to upload files,
    whatever the planner and the language model would have answered. *)
Theorem no_answer_without_a_dataset (generate : string -> res string)
    (json_loads : string -> option json) (arrow : string)
    (show_result : result -> string) (show_context : list string -> string)
    (w : World) (st : RAGState) (user_message : string) :
  is_initialized
    (snd (get_rag_response generate json_loads arrow show_result show_context
            w st user_message)) = false ->
  get_rag_response generate json_loads arrow show_result show_context
    w st user_message
  = (Ok no_data_message, snd (initialize_rag_system w false st)).
Proof.
  unfold get_rag_response. destruct (is_initialized st) eqn:Ei.
  - cbn [snd]. congruence.
  - pose proof (@initialize_true_ready w false st) as Hready.
    destruct (initialize_rag_system w false st) as [success st'].
    cbn [fst snd] in *. destruct success; cbn [snd]; [|reflexivity].
    intros H. rewrite Hready in H by reflexivity. discriminate H.
Qed.

Lemma no_answer_without_a_dataset_witness :
  get_rag_response (fun _ => Ok "Total sales are 270.") (fun _ => None)
    " -> " (fun _ => "270") (fun _ => "") no_file_world initial_state
    "What are the total sales?"
  = (Ok no_data_message,
     snd (initialize_rag_system no_file_world false initial_state)).
Proof.
  apply (@no_answer_without_a_dataset (fun _ => Ok "Total sales are 270.")
           (fun _ => None) " -> " (fun _ => "270") (fun _ => "")
           no_file_world initial_state "What are the total sales?").
  reflexivity.
Defined.

End Queries.

(* ================================================================= *)
(** ** The messages sent to the chat model *)

Section ChatMessages.

Lemma last_n_app {A} (old recent : list A) :
  last_n (List.length recent) (old ++ recent) = recent.
Proof.
  unfold last_n. rewrite length_app.
  replace (List.length old + List.length recent - List.length recent)%nat
    with (List.length old + 0)%nat by lia.
  rewrite skipn_app, Nat.add_0_r, skipn_all.
  replace (List.length old - List.length old)%nat with 0%nat by lia.
  reflexivity.
Qed.

(** X25.  Only the last ten items of the chat history reach the chat model:
    what lies before them has no influence on the reply of
    [get_groq_response]; with ten items or more in the history the request
    holds twelve messages, the system prompt, the last ten items in their
    order and the message of the user. *)
Theorem only_the_last_ten_items_count
    (create : list Message -> string + string) (user_message : string)
    (old recent : list HistoryItem) :
  List.length recent = 10%nat ->
  get_groq_response create user_message (Some (old ++ recent))
  = get_groq_response create user_message (Some recent)
  /\ build_messages user_message (Some (old ++ recent))
     = [mkMessage "system" system_prompt] ++ map message_of recent
       ++ [mkMessage "user" user_message]
  /\ List.length (build_messages user_message (Some (old ++ recent))) = 12%nat.
Proof.
  intros Hlen.
  assert (Hb : forall h, h <> [] ->
    build_messages user_message (Some h)
    = [mkMessage "system" system_prompt] ++ map message_of (last_n 10 h)
      ++ [mkMessage "user" user_message]).
  { intros [|item items] Hh; [contradiction|reflexivity]. }
  assert (Hrecent : recent <> []) by (destruct recent; [discriminate Hlen|discriminate]).
  assert (Hall : old ++ recent <> []).
  { intros H. apply app_eq_nil in H. destruct H as [_ H]. contradiction. }
  assert (Hmsgs : build_messages user_message (Some (old ++ recent))
                  = [mkMessage "system" system_prompt] ++ map message_of recent
                    ++ [mkMessage "user" user_message]).
  { rewrite (Hb _ Hall), <- Hlen, last_n_app. reflexivity. }
  assert (Hmsgs' : build_messages user_message (Some recent)
                   = [mkMessage "system" system_prompt] ++ map message_of recent
                     ++ [mkMessage "user" user_message]).
  { rewrite (Hb _ Hrecent). rewrite <- Hlen at 1.
    pose proof (@last_n_app _ [] recent) as H. cbn [app] in H.
    rewrite H. reflexivity. }
  split; [|split].
  - unfold get_groq_response. rewrite Hmsgs, Hmsgs'. reflexivity.
  - exact Hmsgs.
  - rewrite Hmsgs. cbn [app List.length]. rewrite length_app, length_map, Hlen.
    reflexivity.
Qed.

Lemma only_the_last_ten_items_count_witness :
  get_groq_response (fun ms => inl (str_of_nat (List.length ms))) "And now?"
    (Some ([mkHistoryItem "user" "first question"]
           ++ repeat (mkHistoryItem "bot" "an answer") 10))
  = get_groq_response (fun ms => inl (str_of_nat (List.length ms))) "And now?"
      (Some (repeat (mkHistoryItem "bot" "an answer") 10)).
Proof.
  apply (@only_the_last_ten_items_count
           (fun ms => inl (str_of_nat (List.length ms))) "And now?"
           [mkHistoryItem "user" "first question"]
           (repeat (mkHistoryItem "bot" "an answer") 10)).
  reflexivity.
Defined.

End ChatMessages.
